(** * ICON configure helper for Ubuntu 20 (CPU): a shallow embedding

    The development follows [scripts/icon-cfg/ubuntu20.cpu.py].  The script
    is sequential glue around three external collaborators (the filesystem,
    the apt package cache and git working copies); they are gathered in one
    explicit [World] that every function threads through a small
    state-and-exception monad.  A Python [assert] becomes [assert_], which
    raises [AssertionError] and leaves the world as it was at that point. *)

From Stdlib Require Import Strings.String Strings.Ascii.
From stdpp Require Import base option list gmap strings.

Local Open Scope string_scope.

(** ** Text *)

Definition chr (n : nat) : string := String (ascii_of_nat n) EmptyString.
(** The characters that cannot be typed inside a literal. *)
Definition nl : string := chr 10.
Definition tab : string := chr 9.
Definition dq : string := chr 34.
Definition slash : ascii := ascii_of_nat 47.

(** [s[n:]] *)
Fixpoint str_drop (n : nat) (s : string) : string :=
  match n, s with
  | O, _ => s
  | S _, EmptyString => EmptyString
  | S n', String _ s' => str_drop n' s'
  end.

(** [s[:n]] for a non-negative [n] *)
Fixpoint str_take (n : nat) (s : string) : string :=
  match n, s with
  | O, _ => EmptyString
  | S _, EmptyString => EmptyString
  | S n', String c s' => String c (str_take n' s')
  end.

(** [s[:-k]]: everything but the last [k] characters (empty when the string
    is shorter than [k]). *)
Definition str_drop_last (k : nat) (s : string) : string :=
  str_take (String.length s - k) s.

(** [s.startswith(p)] *)
Definition startswith (p s : string) : bool := String.prefix p s.

(** [s.endswith(suf)] *)
Definition endswith (suf s : string) : bool :=
  bool_decide (String.length suf ≤ String.length s)%nat
  && bool_decide (str_drop (String.length s - String.length suf) s = suf).

(** [sep.join(l)] *)
Fixpoint join (sep : string) (l : list string) : string :=
  match l with
  | [] => EmptyString
  | [x] => x
  | x :: l' => x +:+ sep +:+ join sep l'
  end.

(** [needle in hay], as a proposition. *)
Definition contains (hay needle : string) : Prop :=
  ∃ pre post, hay = pre +:+ needle +:+ post.

(** ** Paths *)

(** [os.path.join(a, b)] for two components (posixpath). *)
Definition join_path (a b : string) : string :=
  if startswith "/" b then b
  else if bool_decide (a = EmptyString) || endswith "/" a then a +:+ b
  else a +:+ "/" +:+ b.

(** The proper ancestors of a path: every non-empty prefix that stops right
    before a separator.  [acc] is the prefix read so far. *)
Fixpoint ancestors_from (acc s : string) : list string :=
  match s with
  | EmptyString => []
  | String c s' =>
      (if bool_decide (c = slash) && negb (bool_decide (acc = EmptyString))
       then [acc] else [])
      ++ ancestors_from (acc +:+ String c EmptyString) s'
  end.

Definition ancestors (p : string) : list string := ancestors_from EmptyString p.

(** The path without its trailing separators: the name the last component of
    [p] goes by. *)
Fixpoint rstrip_slash (p : string) : string :=
  match p with
  | EmptyString => EmptyString
  | String c p' =>
      let rest := rstrip_slash p' in
      if bool_decide (c = slash) && bool_decide (rest = EmptyString) then EmptyString
      else String c rest
  end.

(** ** The records of the script *)

Record Args := {
  icon_dir : string;
  build_dir : string;
  cc : string;
  fc : string;
  claw : option string;
  icon_git_repo : option string;
  icon_git_branch : option string;
  mpi : bool }.

Record DependencyInfo := DepInfo {
  name : string;
  apt_package : string;
  include_dir : string;
  lib_dir : string;
  test_h : string;
  lib : string }.

Definition DEPS : list DependencyInfo := [
  DepInfo "lapack" "liblapacke-dev" "/usr/include" "/usr/lib/x86_64-linux-gnu/lapack" "lapacke.h" "liblapack.so";
  DepInfo "blas" "libblas-dev" "/usr/include/x86_64-linux-gnu" "/usr/lib/x86_64-linux-gnu/blas" "cblas.h" "libblas.so";
  DepInfo "NetCDF-Fortran" "libnetcdff-dev" "/usr/include" "/usr/lib/x86_64-linux-gnu" "netcdf.inc" "libnetcdf.so";
  DepInfo "NetCDF-C" "libnetcdf-dev" "/usr/include" "/usr/lib/x86_64-linux-gnu" "netcdf.h" "libnetcdff.so";
  DepInfo "zlib" "zlib1g-dev" "/usr/include" "/usr/lib/x86_64-linux-gnu" "zlib.h" "libz.so";
  DepInfo "szip" "libsz2" "/usr/include" "/usr/lib/x86_64-linux-gnu" "szlib.h" "libsz.so";
  DepInfo "xml2" "libxml2-dev" "/usr/include/libxml2" "/usr/lib/x86_64-linux-gnu" "libxml/parser.h" "libxml2.so" ].

(** ** The world outside the script *)

(** A filesystem entry.  A regular file carries its text and the logical time
    of its last modification. *)
Inductive node :=
  | File (content : string) (mtime : nat)
  | Dir.

(** A git working copy: the URL of its remote [origin] (if it has one), the
    name of the checked-out branch (none on a detached HEAD) and the names of
    its submodules. *)
Record Checkout := {
  origin_url : option string;
  active_branch : option string;
  submodules : list string }.

(** Everything the script does to, or prints about, the outside. *)
Inductive event :=
  | EvPrint (s : string)
  | EvMakedirs (p : string)
  | EvRead (p : string)
  | EvRemove (p : string)
  | EvWrite (p txt : string)
  | EvClone (url dir branch : string)
  | EvSubmoduleUpdate (sub : string).

Record World := {
  nodes : gmap string node;          (* the filesystem, by literal path *)
  clock : nat;                       (* logical time; ticks on every write *)
  apt_cache : gmap string bool;      (* package -> is_installed *)
  repos : gmap string Checkout;      (* working copies, by directory *)
  remotes : gmap (string * string) (list string);
                                     (* (url, branch) -> submodules *)
  trace : list event }.              (* oldest event first *)

Inductive error :=
  | AssertionError (msg : option string)
  | FileNotFoundError
  | FileExistsError
  | NotADirectoryError
  | IsADirectoryError
  | InvalidGitRepositoryError
  | NoSuchRemote                     (* ValueError of [repo.remote] *)
  | DetachedHead                     (* TypeError of [repo.active_branch] *)
  | GitCommandError.

Inductive result (A : Type) :=
  | Ok (a : A)
  | Raise (e : error).
Arguments Ok {A} a.
Arguments Raise {A} e.

(** ** The monad: state passing with exceptions *)

Definition M (A : Type) : Type := World → result A * World.

Definition ret {A} (a : A) : M A := λ w, (Ok a, w).
Definition raise {A} (e : error) : M A := λ w, (Raise e, w).
Definition bind {A B} (m : M A) (k : A → M B) : M B :=
  λ w, match m w with
       | (Ok a, w') => k a w'
       | (Raise e, w') => (Raise e, w')
       end.

Notation "'do' x <- m ; k" := (bind m (λ x, k))
  (at level 10, x binder, m at level 100, k at level 200).
Notation "m ;; k" := (bind m (λ _, k))
  (at level 100, k at level 200, right associativity).

Definition gets {A} (f : World → A) : M A := λ w, (Ok (f w), w).
Definition modify (f : World → World) : M unit := λ w, (Ok tt, f w).

Definition add_events (es : list event) (w : World) : World :=
  {| nodes := nodes w; clock := clock w; apt_cache := apt_cache w;
     repos := repos w; remotes := remotes w; trace := trace w ++ es |}.

Definition log (e : event) : M unit := modify (add_events [e]).

Definition print (s : string) : M unit := log (EvPrint s).

(** [assert cond, msg] *)
Definition assert_ (cond : bool) (msg : string) : M unit :=
  if cond then ret tt else raise (AssertionError (Some msg)).

(** [for x in xs: body x] *)
Fixpoint for_each {A} (xs : list A) (body : A → M unit) : M unit :=
  match xs with
  | [] => ret tt
  | x :: xs' => body x ;; for_each xs' body
  end.

Definition lift {A} (r : result A) : M A := λ w, (r, w).

(** ** Filesystem primitives *)

Definition path_exists (path : string) (w : World) : bool :=
  bool_decide (is_Some (nodes w !! path)).

Definition path_isdir (path : string) (w : World) : bool :=
  match nodes w !! path with Some Dir => true | _ => false end.

Definition path_isfile (path : string) (w : World) : bool :=
  match nodes w !! path with Some (File _ _) => true | _ => false end.

Definition dir_exists (path : string) (w : World) : bool :=
  path_exists path w && path_isdir path w.

Definition file_exists (path : string) (w : World) : bool :=
  path_exists path w && path_isfile path w.

Definition with_nodes (f : gmap string node → gmap string node) (w : World) : World :=
  {| nodes := f (nodes w); clock := clock w; apt_cache := apt_cache w;
     repos := repos w; remotes := remotes w; trace := trace w |}.

(** Turn every listed path into a directory. *)
Definition mkdir_all (ps : list string) (fs : gmap string node) : gmap string node :=
  foldr (λ p m, <[p := Dir]> m) fs ps.

(** [os.makedirs(p, exist_ok=True)]: creates [p] and its missing ancestors;
    an existing directory is accepted, a regular file in the way is not: a
    file above the last component gives [NotADirectoryError], a file in the
    place of the last component (with or without the trailing separators of
    [p]) gives [FileExistsError].  The call is recorded whether it succeeds
    or not. *)
Definition makedirs (p : string) : M unit :=
  log (EvMakedirs p) ;;
  do w <- gets id;
  if bool_decide (p = EmptyString) then raise FileNotFoundError
  else if existsb (λ a, path_isfile a w) (ancestors (rstrip_slash p))
  then raise NotADirectoryError
  else if existsb (λ a, path_isfile a w) (ancestors p) || path_isfile p w
  then raise FileExistsError
  else modify (with_nodes (mkdir_all (ancestors p ++ [p]))).

(** [open(p, 'r').read()].  A regular file is kept as the text that was
    written to it, and reading returns that text: this is what text mode
    does for a text that the codec of the locale accepts and that has no
    carriage return in it (see [plain_text]). *)
Definition read_text (p : string) : M string :=
  log (EvRead p) ;;
  do w <- gets id;
  match nodes w !! p with
  | Some (File txt _) => ret txt
  | Some Dir => raise IsADirectoryError
  | None => raise FileNotFoundError
  end.

(** [os.remove(p)] *)
Definition remove (p : string) : M unit :=
  log (EvRemove p) ;;
  do w <- gets id;
  match nodes w !! p with
  | Some (File _ _) => modify (with_nodes (delete p))
  | Some Dir => raise IsADirectoryError
  | None => raise FileNotFoundError
  end.

(** The file [p] holds [txt], stamped with the current time. *)
Definition written (p txt : string) (w : World) : World :=
  {| nodes := <[p := File txt (clock w)]> (nodes w); clock := S (clock w);
     apt_cache := apt_cache w; repos := repos w; remotes := remotes w;
     trace := trace w |}.

(** [open(p, 'w').write(txt)]: the file is created or truncated, then
    written, and its modification time becomes the current time.  Every
    ancestor of [p] has to be a directory.  As for [read_text], the text is
    taken to be one that the codec of the locale accepts. *)
Definition write_text (p txt : string) : M unit :=
  log (EvWrite p txt) ;;
  do w <- gets id;
  if path_isdir p w then raise IsADirectoryError
  else if existsb (λ a, path_isfile a w) (ancestors p) then raise NotADirectoryError
  else if negb (forallb (λ a, path_isdir a w) (ancestors p)) then raise FileNotFoundError
  else modify (written p txt).

(** ** Git primitives (GitPython) *)

(** [git.Repo(dir)] *)
Definition open_repo (dir : string) : M Checkout :=
  do w <- gets id;
  match repos w !! dir with
  | Some c => ret c
  | None => raise InvalidGitRepositoryError
  end.

(** [repo.remote("origin").url] *)
Definition remote_url (repo : Checkout) : M string :=
  match origin_url repo with
  | Some u => ret u
  | None => raise NoSuchRemote
  end.

(** [repo.active_branch.name] *)
Definition active_branch_name (repo : Checkout) : M string :=
  match active_branch repo with
  | Some b => ret b
  | None => raise DetachedHead
  end.

(** What git itself does is not in the script.  [git.Repo.clone_from] and
    [submodule.update] are parameters of [prepare_source] below: each may
    change the world in any way, print through the progress object it is
    handed, and raise.  The definitions that follow are particular
    behaviours, used as instances. *)

(** A clone that goes well when the remote offers the branch (the world
    says which remotes do) and nothing is at the destination: the tree is
    created and the working copy records the URL and the branch. *)
Definition clone_offered (url dir branch : string) : M unit :=
  log (EvClone url dir branch) ;;
  do w <- gets id;
  match remotes w !! (url, branch) with
  | Some subs =>
      if bool_decide (dir = EmptyString) || path_exists dir w
         || existsb (λ a, path_isfile a w) (ancestors dir)
      then raise GitCommandError
      else modify (λ w, {| nodes := mkdir_all (ancestors dir ++ [dir]) (nodes w);
                           clock := clock w; apt_cache := apt_cache w;
                           repos := <[dir := {| origin_url := Some url;
                                                active_branch := Some branch;
                                                submodules := subs |}]> (repos w);
                           remotes := remotes w; trace := trace w |})
  | None => raise GitCommandError
  end.

(** A clone that git refuses. *)
Definition clone_refused (url dir branch : string) : M unit :=
  log (EvClone url dir branch) ;; raise GitCommandError.

(** A submodule update that finds everything in place: it succeeds and
    reports nothing. *)
Definition submodule_update_quiet (dir sub : string) : M unit :=
  log (EvSubmoduleUpdate sub).

(** A submodule update whose remote cannot be reached. *)
Definition submodule_update_unreachable (dir sub : string) : M unit :=
  log (EvSubmoduleUpdate sub) ;; raise GitCommandError.

(** ** The script *)

(** *** [check_dependencies] *)

Definition msg_pkg_unknown (dep : DependencyInfo) : string :=
  tab +:+ tab +:+ "Apt package " +:+ dq +:+ apt_package dep +:+ dq
  +:+ " not found. Update apt cache with"
  +:+ " [sudo apt-get update] before running the script".

Definition msg_pkg_missing (dep : DependencyInfo) : string :=
  "Install " +:+ dq +:+ apt_package dep +:+ dq
  +:+ " with [sudo apt-get install " +:+ apt_package dep +:+ "]".

Definition msg_header_missing (dep : DependencyInfo) : string :=
  "Header " +:+ dq +:+ test_h dep +:+ dq +:+ " not found at " +:+ include_dir dep.

Definition msg_lib_missing (dep : DependencyInfo) : string :=
  "Header " +:+ dq +:+ lib dep +:+ dq +:+ " not found at " +:+ lib_dir dep.

(** The body of the loop, for one descriptor. *)
Definition check_dependency (dep : DependencyInfo) : M unit :=
  print (tab +:+ name dep) ;;
  do pkg <- gets (λ w, apt_cache w !! apt_package dep);
  match pkg with
  | None => raise (AssertionError (Some (msg_pkg_unknown dep)))
  | Some is_installed =>
      assert_ is_installed (msg_pkg_missing dep) ;;
      let test_h_path := join_path (include_dir dep) (test_h dep) in
      let test_lib_path := join_path (lib_dir dep) (lib dep) in
      do h <- gets (file_exists test_h_path);
      assert_ h (msg_header_missing dep) ;;
      do l <- gets (file_exists test_lib_path);
      assert_ l (msg_lib_missing dep)
  end.

(** The source iterates over the global [DEPS]; the catalog is a parameter
    here so that statements can range over catalogs. *)
Definition check_dependencies (deps : list DependencyInfo) : M unit :=
  for_each deps check_dependency.

(** *** [prepare_source] *)

Definition msg_other_repo (dir_link : string) : string :=
  tab +:+ "Source directory origin is in different repository "
  +:+ dq +:+ dir_link +:+ dq.

Definition msg_other_branch (dir_branch_name : string) : string :=
  tab +:+ "Source directory origin is different branch "
  +:+ dq +:+ dir_branch_name +:+ dq.

Definition msg_no_source (dir : string) : string :=
  "ICON source dir " +:+ dq +:+ dir +:+ dq +:+ " does not exist".

Section Git.
(** [git.Repo.clone_from(url, dir, branch=branch, progress=CloneProgress())] *)
Variable clone_from : string → string → string → M unit.

(** [submodule.update(init=True, progress=SubmoduleUpdateProgress())], for
    the submodule of the given name in the working copy at the given
    directory. *)
Variable submodule_update : string → string → M unit.

Definition prepare_source (args : Args) : M unit :=
  match icon_git_repo args with
  | Some git_link =>
      let git_branch := default "master" (icon_git_branch args) in
      do present <- gets (dir_exists (icon_dir args));
      (if present : bool then
         print (tab +:+ "Source directory " +:+ dq +:+ icon_dir args +:+ dq
                +:+ " not empty") ;;
         do repo <- open_repo (icon_dir args);
         do dir_link <- remote_url repo;
         assert_ (bool_decide (dir_link = git_link)) (msg_other_repo dir_link) ;;
         do dir_branch_name <- active_branch_name repo;
         assert_ (bool_decide (dir_branch_name = git_branch))
                 (msg_other_branch dir_branch_name)
       else
         print ("Cloning into " +:+ icon_dir args) ;;
         clone_from git_link (icon_dir args) git_branch) ;;
      do repo <- open_repo (icon_dir args);
      print (tab +:+ "Updating submodules...") ;;
      for_each (submodules repo) (λ submodule,
        print (tab +:+ submodule) ;;
        submodule_update (icon_dir args) submodule)
  | None =>
      do present <- gets (dir_exists (icon_dir args));
      assert_ present (msg_no_source (icon_dir args))
  end.
End Git.

(** *** [generate_configure_script] *)

(** The link name of a library file: [lib] is asserted and cut off, then one
    of the suffixes [.a], [.so] if there is one. *)
Definition link_name (l : string) : result string :=
  if startswith "lib" l then
    let l := str_drop 3 l in
    Ok (if endswith ".a" l then str_drop_last 2 l
        else if endswith ".so" l then str_drop_last 3 l
        else l)
  else Raise (AssertionError None).

(** The first loop: the local variables [include_dirs], [lib_dirs] and [libs]
    are threaded through the catalog. *)
Fixpoint scan_deps (deps : list DependencyInfo)
    (include_dirs lib_dirs : gset string) (libs : list string)
    : result (gset string * gset string * list string) :=
  match deps with
  | [] => Ok (include_dirs, lib_dirs, libs)
  | dep :: deps' =>
      let include_dirs := include_dirs ∪ {[include_dir dep]} in
      let lib_dirs := lib_dirs ∪ {[lib_dir dep]} in
      match link_name (lib dep) with
      | Ok l => scan_deps deps' include_dirs lib_dirs (libs ++ [l])
      | Raise e => Raise e
      end
  end.

Definition msg_not_implemented : string := "Not implemented".

(** The text of the script, from the three flag strings and the
    configuration.  The [mpi] switch is examined by the caller. *)
Definition render (args : Args) (inc_str lib_dirs_str libs_str : string) : string :=
  let cfg_defs :=
    nl +:+ "export CC=" +:+ dq +:+ cc args +:+ dq +:+ nl
    +:+ "export FC=" +:+ dq +:+ fc args +:+ dq +:+ nl
    +:+ "export CFLAGS=" +:+ dq +:+ inc_str +:+ dq +:+ nl
    +:+ "export CPPFLAGS=" +:+ dq +:+ inc_str +:+ dq +:+ nl
    +:+ "export FCFLAGS=" +:+ dq +:+ inc_str +:+ dq +:+ nl
    +:+ "export LDFLAGS=" +:+ dq +:+ lib_dirs_str +:+ dq +:+ nl
    +:+ "export LIBS=" +:+ dq +:+ libs_str +:+ dq +:+ nl in
  let '(cfg_defs, cfg_flags) :=
    match claw args with
    | Some c => (cfg_defs +:+ "export CLAW=" +:+ dq +:+ c +:+ dq, ["--enable-claw"])
    | None => (cfg_defs, [])
    end in
  let cfg_flags := (cfg_flags ++ ["--disable-mpi"])%list in
  let cfg_flags_str := join " " cfg_flags in
  let cfg_script_header := nl +:+ "#!/bin/bash" +:+ nl in
  let cfg_script := cfg_script_header +:+ cfg_defs in
  cfg_script +:+ nl +:+ icon_dir args +:+ "/configure " +:+ cfg_flags_str +:+ nl.

Section Generator.
(** The order in which the interpreter iterates over a [set] of strings.
    Python fixes it only within one process: it follows the hash values of
    the strings, which are salted anew at every start of the interpreter. *)
Variable set_iter : gset string → list string.

Definition generate_configure_script (deps : list DependencyInfo) (args : Args)
    : M (string * string) :=
  do scanned <- lift (scan_deps deps ∅ ∅ []);
  let '(include_dirs, lib_dirs, libs) := scanned in
  let inc_str := join " " ((λ inc, "-I" +:+ inc) <$> set_iter include_dirs) in
  let lib_dirs_str := join " " ((λ l, "-L" +:+ l) <$> set_iter lib_dirs) in
  let libs_str := join " " ((λ l, "-l" +:+ l) <$> libs) in
  if mpi args then raise (AssertionError (Some msg_not_implemented))
  else
    let cfg_script := render args inc_str lib_dirs_str libs_str in
    makedirs (build_dir args) ;;
    let cfg_script_file := join_path (build_dir args) "configure.sh" in
    do present <- gets (file_exists cfg_script_file);
    (if present : bool then
       do txt <- read_text cfg_script_file;
       if bool_decide (cfg_script ≠ txt) then remove cfg_script_file else ret tt
     else ret tt) ;;
    write_text cfg_script_file cfg_script ;;
    ret (cfg_script_file, cfg_script).
End Generator.

(** An admissible iteration order lists the members of the set, each once. *)
Definition iteration_order (it : gset string → list string) : Prop :=
  ∀ X, it X ≡ₚ elements X.

(** *** [check_compilers] *)

Definition msg_cc_missing (args : Args) : string :=
  "C compiler " +:+ dq +:+ cc args +:+ dq +:+ " not found".

Definition msg_fc_missing (args : Args) : string :=
  "Fortran compiler " +:+ dq +:+ cc args +:+ dq +:+ " not found".

Definition msg_claw_missing (c : string) : string :=
  "CLAW compiler " +:+ dq +:+ c +:+ dq +:+ " not found".

Definition check_compilers (args : Args) : M unit :=
  do c <- gets (file_exists (cc args));
  assert_ c (msg_cc_missing args) ;;
  do f <- gets (file_exists (fc args));
  assert_ f (msg_fc_missing args) ;;
  match claw args with
  | Some cl =>
      do e <- gets (file_exists cl);
      assert_ e (msg_claw_missing cl)
  | None => ret tt
  end.

(** ** Vocabulary of the statements *)

(** The three things the verifier wants of a descriptor. *)
Definition pkg_installed (dep : DependencyInfo) (w : World) : bool :=
  bool_decide (apt_cache w !! apt_package dep = Some true).

Definition header_present (dep : DependencyInfo) (w : World) : bool :=
  file_exists (join_path (include_dir dep) (test_h dep)) w.

Definition lib_present (dep : DependencyInfo) (w : World) : bool :=
  file_exists (join_path (lib_dir dep) (lib dep)) w.

Definition dep_ok (dep : DependencyInfo) (w : World) : bool :=
  pkg_installed dep w && header_present dep w && lib_present dep w.

(** The progress lines of the verifier for a list of descriptors. *)
Definition names_printed (deps : list DependencyInfo) : list event :=
  (λ d, EvPrint (tab +:+ name d)) <$> deps.

(** The submodule pass of [prepare_source]: its last loop. *)
Definition update_submodules (submodule_update : string → string → M unit)
    (dir : string) (subs : list string) : M unit :=
  for_each subs (λ submodule,
    print (tab +:+ submodule) ;;
    submodule_update dir submodule).

(** The events of a submodule pass in which every update is quiet. *)
Definition submodule_pass (subs : list string) : list event :=
  flat_map (λ sm, [EvPrint (tab +:+ sm); EvSubmoduleUpdate sm]) subs.

Definition is_clone (e : event) : bool :=
  match e with EvClone _ _ _ => true | _ => false end.

Definition with_fc (f : string) (args : Args) : Args :=
  {| icon_dir := icon_dir args; build_dir := build_dir args; cc := cc args;
     fc := f; claw := claw args; icon_git_repo := icon_git_repo args;
     icon_git_branch := icon_git_branch args; mpi := mpi args |}.

(** The path of the generated script. *)
Definition cfg_path (args : Args) : string := join_path (build_dir args) "configure.sh".

(** The text rendered from the outcome of the first loop. *)
Definition script_of (it : gset string → list string) (args : Args)
    (scanned : gset string * gset string * list string) : string :=
  let '(include_dirs, lib_dirs, libs) := scanned in
  render args (join " " ((λ inc, "-I" +:+ inc) <$> it include_dirs))
              (join " " ((λ l, "-L" +:+ l) <$> it lib_dirs))
              (join " " ((λ l, "-l" +:+ l) <$> libs)).

(** Nothing on the filesystem stands in the way of the script: the build
    directory has a name, neither it nor an ancestor is a regular file, and
    the path of the script is not taken by a directory. *)
Definition build_dir_usable (args : Args) (w : World) : bool :=
  negb (bool_decide (build_dir args = EmptyString))
  && negb (existsb (λ a, path_isfile a w) (ancestors (build_dir args)))
  && negb (path_isfile (build_dir args) w)
  && negb (path_isdir (cfg_path args) w).

(** What the generator does about an earlier script before it writes: it
    reads it, and removes it when the text differs. *)
Definition reconcile_events (path txt : string) (w : World) : list event :=
  match nodes w !! path with
  | Some (File old _) =>
      EvRead path :: (if bool_decide (txt ≠ old) then [EvRemove path] else [])
  | _ => []
  end.

(** The world a successful run of the generator leaves behind. *)
Definition after_generate (args : Args) (txt : string) (w : World) : World :=
  let p := build_dir args in
  written (cfg_path args) txt
    (with_nodes (mkdir_all (ancestors p ++ [p]))
       (add_events (EvMakedirs p :: reconcile_events (cfg_path args) txt w
                    ++ [EvWrite (cfg_path args) txt]) w)).

(** The reverse of an iteration order. *)
Definition elements_rev (X : gset string) : list string := reverse (elements X).

(** Worlds and configurations used as concrete instances. *)
Definition w_empty : World :=
  {| nodes := ∅; clock := 0; apt_cache := ∅; repos := ∅; remotes := ∅; trace := [] |}.

Definition with_fs (fs : gmap string node) (w : World) : World :=
  with_nodes (λ _, fs) w.

Definition args_default : Args :=
  {| icon_dir := "/src/icon"; build_dir := "/build/icon";
     cc := "/usr/bin/gcc"; fc := "/usr/bin/gfortran"; claw := None;
     icon_git_repo := None; icon_git_branch := None; mpi := false |}.

(** Only the C compiler is installed. *)
Definition w_only_gcc : World :=
  with_fs {[ "/usr/bin/gcc" := File "ELF" 0 ]} w_empty.

(** A working copy of the model at [/src/icon], on master. *)
Definition icon_url : string := "https://git.example.org/icon.git".

Definition co_icon : Checkout :=
  {| origin_url := Some icon_url; active_branch := Some "master";
     submodules := ["externals/cdi"; "externals/yac"] |}.

Definition w_checkout : World :=
  {| nodes := {[ "/src/icon" := Dir ]}; clock := 0; apt_cache := ∅;
     repos := {[ "/src/icon" := co_icon ]}; remotes := ∅; trace := [] |}.

Definition args_git (branch : option string) : Args :=
  {| icon_dir := "/src/icon"; build_dir := "/build/icon";
     cc := "/usr/bin/gcc"; fc := "/usr/bin/gfortran"; claw := None;
     icon_git_repo := Some icon_url; icon_git_branch := branch; mpi := false |}.

(** A machine on which lapack is complete and the header of blas is missing. *)
Definition w_blas_header_missing : World :=
  {| nodes := {[ "/usr/include/lapacke.h" := File "" 0;
                 "/usr/lib/x86_64-linux-gnu/lapack/liblapack.so" := File "" 0;
                 "/usr/lib/x86_64-linux-gnu/blas/libblas.so" := File "" 0 ]};
     clock := 1;
     apt_cache := {[ "liblapacke-dev" := true; "libblas-dev" := true ]};
     repos := ∅; remotes := ∅; trace := [] |}.

(** What the first loop of the generator collects from [DEPS]. *)
Definition DEPS_scanned : gset string * gset string * list string :=
  ({[ "/usr/include"; "/usr/include/x86_64-linux-gnu"; "/usr/include/libxml2" ]},
   {[ "/usr/lib/x86_64-linux-gnu/lapack"; "/usr/lib/x86_64-linux-gnu/blas";
      "/usr/lib/x86_64-linux-gnu" ]},
   ["lapack"; "blas"; "netcdf"; "netcdff"; "z"; "sz"; "xml2"]).

(** The text of a successful result (empty for a failure). *)
Definition text_of (r : result (string * string)) : string :=
  match r with Ok (_, txt) => txt | Raise _ => EmptyString end.

(** The build directory holds the script that [args_default] renders, last
    modified at time 5; it is now time 9. *)
Definition w_same_script : World :=
  {| nodes := {[ "/build/icon" := Dir;
                 "/build/icon/configure.sh"
                 := File (script_of elements args_default DEPS_scanned) 5 ]};
     clock := 9; apt_cache := ∅; repos := ∅; remotes := ∅; trace := [] |}.

Definition args_mpi : Args :=
  {| icon_dir := "/src/icon"; build_dir := "/build/icon";
     cc := "/usr/bin/gcc"; fc := "/usr/bin/gfortran"; claw := None;
     icon_git_repo := None; icon_git_branch := None; mpi := true |}.

(** The catalog and the expected text of the example scenario. *)
Definition zlib_catalog (pkg : string) : list DependencyInfo :=
  [DepInfo "zlib" pkg "/usr/include" "/usr/lib" "zlib.h" "libz.so"].

Definition zlib_exports : string :=
  nl +:+ "#!/bin/bash" +:+ nl
  +:+ nl +:+ "export CC=" +:+ dq +:+ "/usr/bin/gcc" +:+ dq +:+ nl
  +:+ "export FC=" +:+ dq +:+ "/usr/bin/gfortran" +:+ dq +:+ nl
  +:+ "export CFLAGS=" +:+ dq +:+ "-I/usr/include" +:+ dq +:+ nl
  +:+ "export CPPFLAGS=" +:+ dq +:+ "-I/usr/include" +:+ dq +:+ nl
  +:+ "export FCFLAGS=" +:+ dq +:+ "-I/usr/include" +:+ dq +:+ nl
  +:+ "export LDFLAGS=" +:+ dq +:+ "-L/usr/lib" +:+ dq +:+ nl
  +:+ "export LIBS=" +:+ dq +:+ "-lz" +:+ dq +:+ nl.

Definition zlib_script (icon_dir : string) : string :=
  zlib_exports +:+ nl +:+ icon_dir +:+ "/configure --disable-mpi" +:+ nl.

(** *** [configure] *)

Definition msg_source_not_found (dir : string) : string :=
  "ICON source dir " +:+ dq +:+ dir +:+ dq +:+ " not found".

Definition configure (args : Args) : M unit :=
  do present <- gets (dir_exists (icon_dir args));
  assert_ present (msg_source_not_found (icon_dir args)).

(** *** [main] *)

Inductive ReturnCode := SUCCESS | FAILURE.

Definition value (rc : ReturnCode) : Z :=
  match rc with SUCCESS => 0%Z | FAILURE => 1%Z end.

Section Main.
(** The iteration order of sets, as for the generator. *)
Variable set_iter : gset string → list string.

(** [subprocess.run(cmd, shell=True, cwd=cwd, ...).returncode]: what the
    shell does is outside the script; it may change the world, raise, or
    return any code. *)
Variable subprocess_run : string → string → M Z.

(** The two calls into git, as for [prepare_source]. *)
Variable clone_from : string → string → string → M unit.
Variable submodule_update : string → string → M unit.

(** The configuration is a parameter: the source obtains it from
    [parse_args()] as its first step. *)
Definition main (args : Args) : M unit :=
  print "Checking that dependencies are installed..." ;;
  check_dependencies DEPS ;;
  print "Preparing source..." ;;
  prepare_source clone_from submodule_update args ;;
  print "Checking compilers..." ;;
  check_compilers args ;;
  print "Generating configure script..." ;;
  do generated <- generate_configure_script set_iter DEPS args;
  let '(cfg_script_file, cfg_script) := generated in
  print cfg_script ;;
  print "Configuring ICON..." ;;
  do returncode <- subprocess_run "bash configure.sh" (build_dir args);
  if bool_decide (returncode = value SUCCESS) then ret tt
  else raise (AssertionError None).
End Main.

(** ** Further vocabulary *)

(** Everything [main] looks at before it generates the script, for a
    configuration without a remote. *)
Definition compilers_present (args : Args) (w : World) : bool :=
  file_exists (cc args) w && file_exists (fc args) w
  && match claw args with Some c => file_exists c w | None => true end.

Definition preflight_ok (args : Args) (w : World) : bool :=
  forallb (λ d, dep_ok d w) DEPS
  && dir_exists (icon_dir args) w
  && compilers_present args w.

(** The events a run adds to the trace it started with. *)
Definition new_events (w w' : World) : list event :=
  drop (length (trace w)) (trace w').

(** The suffixes the generator knows, and none. *)
Definition known_suffixes : list string := [EmptyString; ".a"; ".so"].

(** A machine with every dependency, both compilers and the source tree. *)
Definition w_ready : World :=
  {| nodes :=
       list_to_map
         (((λ d, (join_path (include_dir d) (test_h d), File EmptyString 0)) <$> DEPS)
          ++ ((λ d, (join_path (lib_dir d) (lib d), File EmptyString 0)) <$> DEPS)
          ++ [("/usr/bin/gcc", File "ELF" 0); ("/usr/bin/gfortran", File "ELF" 0);
              ("/src/icon", Dir)]);
     clock := 1;
     apt_cache := list_to_map ((λ d, (apt_package d, true)) <$> DEPS);
     repos := ∅; remotes := ∅; trace := [] |}.

(** The remote offers master of the model, with two submodules; nothing is
    checked out yet. *)
Definition w_remote : World :=
  {| nodes := ∅; clock := 0; apt_cache := ∅; repos := ∅;
     remotes := {[ (icon_url, "master") := ["externals/cdi"; "externals/yac"] ]};
     trace := [] |}.

Definition args_claw : Args :=
  {| icon_dir := "/src/icon"; build_dir := "/build/icon";
     cc := "/usr/bin/gcc"; fc := "/usr/bin/gfortran"; claw := Some "/opt/claw/bin/clawfc";
     icon_git_repo := None; icon_git_branch := None; mpi := false |}.

(** A shell in which the configure step succeeds, and one in which it fails. *)
Definition shell_ok : string → string → M Z := λ _ _, ret 0%Z.
Definition shell_fails : string → string → M Z := λ _ _, ret 2%Z.

(** The build directory is taken by a regular file. *)
Definition w_build_is_file : World :=
  with_fs {[ "/build/icon" := File "notes" 0 ]} w_empty.

Definition args_trailing_slash : Args :=
  {| icon_dir := "/src/icon"; build_dir := "/build/icon/";
     cc := "/usr/bin/gcc"; fc := "/usr/bin/gfortran"; claw := None;
     icon_git_repo := None; icon_git_branch := None; mpi := false |}.

(** An older script, with another text, is in the build directory. *)
Definition w_old_script : World :=
  {| nodes := {[ "/build/icon" := Dir;
                 "/build/icon/configure.sh" := File "echo old" 2;
                 "/build/icon/config.log" := File "log" 3 ]};
     clock := 9; apt_cache := ∅; repos := ∅; remotes := ∅; trace := [] |}.

(** A catalog with a library that does not follow the naming scheme. *)
Definition bad_catalog : list DependencyInfo :=
  [DepInfo "zlib" "zlib1g-dev" "/usr/include" "/usr/lib" "zlib.h" "libz.so";
   DepInfo "mkl" "intel-mkl" "/opt/mkl/include" "/opt/mkl/lib" "mkl.h" "mkl_rt.so"].

(** The two fixed parts of every script: its first lines and the exports
    that do not depend on the transpiler. *)
Definition cfg_script_header : string := nl +:+ "#!/bin/bash" +:+ nl.

Definition cfg_exports (args : Args) (inc_str lib_dirs_str libs_str : string) : string :=
  nl +:+ "export CC=" +:+ dq +:+ cc args +:+ dq +:+ nl
  +:+ "export FC=" +:+ dq +:+ fc args +:+ dq +:+ nl
  +:+ "export CFLAGS=" +:+ dq +:+ inc_str +:+ dq +:+ nl
  +:+ "export CPPFLAGS=" +:+ dq +:+ inc_str +:+ dq +:+ nl
  +:+ "export FCFLAGS=" +:+ dq +:+ inc_str +:+ dq +:+ nl
  +:+ "export LDFLAGS=" +:+ dq +:+ lib_dirs_str +:+ dq +:+ nl
  +:+ "export LIBS=" +:+ dq +:+ libs_str +:+ dq +:+ nl.

(** A text that text mode writes and reads back unchanged whatever the
    locale: ASCII, and no carriage return. *)
Definition plain_char (c : ascii) : bool :=
  bool_decide (nat_of_ascii c < 128)%nat && negb (bool_decide (nat_of_ascii c = 13)).

Fixpoint plain_text (s : string) : bool :=
  match s with
  | EmptyString => true
  | String c s' => plain_char c && plain_text s'
  end.

(** The world in which [main] calls the generator, when nothing failed
    before and no remote was given: five kinds of lines have been printed. *)
Definition before_generate (w : World) : World :=
  add_events
    ([EvPrint "Checking that dependencies are installed..."]
     ++ names_printed DEPS
     ++ [EvPrint "Preparing source..."; EvPrint "Checking compilers...";
         EvPrint "Generating configure script..."]) w.

(** The calls the generator may make on the filesystem. *)
Definition generator_call (args : Args) (e : event) : Prop :=
  e = EvMakedirs (build_dir args)
  ∨ e = EvRead (cfg_path args)
  ∨ e = EvRemove (cfg_path args)
  ∨ ∃ txt, e = EvWrite (cfg_path args) txt.

(** The branch [prepare_source] asks for. *)
Definition requested_branch (args : Args) : string :=
  default "master" (icon_git_branch args).

(** * Properties *)

(** ** Strings and paths *)

Section Strings.
Implicit Types a b s t acc : string.

Lemma str_app_cons c s t : String c s +:+ t = String c (s +:+ t).
Proof. reflexivity. Qed.

Lemma str_app_nil_r s : s +:+ EmptyString = s.
Proof. induction s as [|c s IH]; [done|]. by rewrite str_app_cons, IH. Qed.

Lemma str_app_assoc a b t : (a +:+ b) +:+ t = a +:+ (b +:+ t).
Proof. induction a as [|c a IH]; [done|]. by rewrite !str_app_cons, IH. Qed.

Lemma str_length_app a b :
  String.length (a +:+ b) = (String.length a + String.length b)%nat.
Proof. induction a as [|c a IH]; [done|]. rewrite str_app_cons. simpl. by rewrite IH. Qed.

Lemma str_drop_app_plus a b n :
  str_drop (String.length a + n) (a +:+ b) = str_drop n b.
Proof. induction a as [|c a IH]; [done|]. rewrite str_app_cons. simpl. apply IH. Qed.

Lemma str_drop_app a b : str_drop (String.length a) (a +:+ b) = b.
Proof. rewrite <- (Nat.add_0_r (String.length a)), str_drop_app_plus. by destruct b. Qed.

Lemma str_take_app a b : str_take (String.length a) (a +:+ b) = a.
Proof. induction a as [|c a IH]; [done|]. rewrite str_app_cons. simpl. by rewrite IH. Qed.

Lemma startswith_app a b : startswith a (a +:+ b) = true.
Proof.
  unfold startswith. induction a as [|c a IH]; [by destruct b|].
  rewrite str_app_cons. simpl. destruct (ascii_dec c c); [apply IH | done].
Qed.

Lemma endswith_app a suf : endswith suf (a +:+ suf) = true.
Proof.
  unfold endswith. rewrite str_length_app.
  replace (String.length a + String.length suf - String.length suf)%nat
    with (String.length a) by lia.
  rewrite str_drop_app. rewrite !bool_decide_eq_true_2; [done..|lia].
Qed.

Lemma str_drop_last_app a suf : str_drop_last (String.length suf) (a +:+ suf) = a.
Proof.
  unfold str_drop_last. rewrite str_length_app.
  replace (String.length a + String.length suf - String.length suf)%nat
    with (String.length a) by lia.
  apply str_take_app.
Qed.

(** A name that ends in [.so] does not end in [.a]. *)
Lemma endswith_a_so a : endswith ".a" (a +:+ ".so") = false.
Proof.
  unfold endswith. rewrite str_length_app. simpl String.length.
  replace (String.length a + 3 - 2)%nat with (String.length a + 1)%nat by lia.
  rewrite str_drop_app_plus. simpl. apply andb_false_r.
Qed.

Lemma str_drop_lib s : str_drop 3 ("lib" +:+ s) = s.
Proof. reflexivity. Qed.

Lemma link_name_so stem : link_name ("lib" +:+ stem +:+ ".so") = Ok stem.
Proof.
  unfold link_name. rewrite startswith_app. cbv zeta. rewrite str_drop_lib.
  rewrite endswith_a_so, endswith_app.
  change 3 with (String.length ".so"). by rewrite str_drop_last_app.
Qed.

Lemma link_name_a stem : link_name ("lib" +:+ stem +:+ ".a") = Ok stem.
Proof.
  unfold link_name. rewrite startswith_app. cbv zeta. rewrite str_drop_lib.
  rewrite endswith_app.
  change 2 with (String.length ".a"). by rewrite str_drop_last_app.
Qed.

Lemma contains_intro pre post needle : contains (pre +:+ needle +:+ post) needle.
Proof. by exists pre, post. Qed.

(** *** Ancestors *)

Lemma ancestors_from_app acc s t :
  ancestors_from acc (s +:+ t)
  = (ancestors_from acc s ++ ancestors_from (acc +:+ s) t)%list.
Proof.
  revert acc. induction s as [|c s IH]; intros acc.
  - simpl. by rewrite str_app_nil_r.
  - rewrite str_app_cons. simpl. rewrite IH, <- app_assoc.
    by rewrite str_app_assoc, str_app_cons.
Qed.

Lemma ancestors_from_shorter acc s a :
  a ∈ ancestors_from acc s → (String.length a < String.length (acc +:+ s))%nat.
Proof.
  revert acc. induction s as [|c s IH]; intros acc; simpl.
  - by intros ?%elem_of_nil.
  - intros [Hin|Hin]%elem_of_app.
    + destruct (_ && _); [|by apply elem_of_nil in Hin].
      apply list_elem_of_singleton in Hin as ->.
      rewrite str_length_app. simpl. lia.
    + apply IH in Hin. by rewrite str_app_assoc, str_app_cons in Hin.
Qed.

Lemma ancestors_shorter p a :
  a ∈ ancestors p → (String.length a < String.length p)%nat.
Proof. apply ancestors_from_shorter. Qed.

Lemma rstrip_slash_split p : ∃ k, p = rstrip_slash p +:+ k.
Proof.
  induction p as [|c p [k IH]]; [by exists EmptyString|]. simpl.
  destruct (_ && _).
  - by exists (String c p).
  - exists k. by rewrite str_app_cons, <- IH.
Qed.

Lemma ancestors_rstrip_slash p a :
  a ∈ ancestors (rstrip_slash p) → a ∈ ancestors p.
Proof.
  destruct (rstrip_slash_split p) as [k Hk]. intros Ha.
  rewrite Hk. unfold ancestors. rewrite ancestors_from_app.
  apply elem_of_app. by left.
Qed.
End Strings.

(** ** The monad *)

(** Runs the monadic plumbing of a goal as far as it is determined. *)
Ltac run :=
  repeat progress
    (unfold bind, gets, modify, ret, raise, lift, print, log, assert_, id; simpl).

Section Monad.
Lemma add_events_nil w : add_events [] w = w.
Proof. destruct w. unfold add_events. simpl. by rewrite app_nil_r. Qed.

Lemma add_events_app es1 es2 w :
  add_events es2 (add_events es1 w) = add_events (es1 ++ es2) w.
Proof. unfold add_events. simpl. by rewrite app_assoc. Qed.

Lemma file_exists_add_events p es w : file_exists p (add_events es w) = file_exists p w.
Proof. reflexivity. Qed.

Lemma bind_ok {A B} (m : M A) (k : A → M B) w a w' :
  m w = (Ok a, w') → bind m k w = k a w'.
Proof. intros H. unfold bind. by rewrite H. Qed.

Lemma bind_raise {A B} (m : M A) (k : A → M B) w e w' :
  m w = (Raise e, w') → bind m k w = (Raise e, w').
Proof. intros H. unfold bind. by rewrite H. Qed.

Lemma for_each_app {A} (xs ys : list A) body w :
  for_each (xs ++ ys) body w
  = match for_each xs body w with
    | (Ok _, w') => for_each ys body w'
    | (Raise e, w') => (Raise e, w')
    end.
Proof.
  revert w. induction xs as [|x xs IH]; intros w; [done|].
  simpl. unfold bind. destruct (body x w) as [[[]|e] w']; [apply IH|done].
Qed.
End Monad.

(** ** The compiler check *)

(** C10.  When the C compiler is a file and the Fortran compiler is not,
    [check_compilers] fails, and the message it gives names the path of the
    C compiler: it is the same whatever the missing Fortran path is. *)
Theorem check_compilers_blames_cc (args : Args) (w : World) :
  file_exists (cc args) w = true →
  file_exists (fc args) w = false →
  check_compilers args w
  = (Raise (AssertionError
      (Some ("Fortran compiler " +:+ dq +:+ cc args +:+ dq +:+ " not found"))), w)
  ∧ ∀ fc', file_exists fc' w = false →
      check_compilers (with_fc fc' args) w = check_compilers args w.
Proof.
  intros Hcc Hfc. unfold check_compilers, bind, gets. simpl. split.
  - rewrite Hcc. simpl. by rewrite Hfc.
  - intros fc' Hfc'. rewrite Hcc. simpl. by rewrite Hfc, Hfc'.
Qed.

Lemma check_compilers_blames_cc_witness :
  check_compilers args_default w_only_gcc
  = (Raise (AssertionError
      (Some ("Fortran compiler " +:+ dq +:+ "/usr/bin/gcc" +:+ dq +:+ " not found"))),
     w_only_gcc).
Proof.
  apply (check_compilers_blames_cc args_default w_only_gcc); reflexivity.
Defined.

(** ** The source synchronizer *)

Section PrepareSource.
Lemma submodule_loop dir subs w :
  update_submodules submodule_update_quiet dir subs w
  = (Ok tt, add_events (submodule_pass subs) w).
Proof.
  unfold update_submodules.
  revert w. induction subs as [|sm subs IH]; intros w; simpl.
  - unfold ret. by rewrite add_events_nil.
  - unfold bind, print, submodule_update_quiet, log, modify. simpl.
    rewrite IH, !add_events_app. done.
Qed.

Lemma submodule_pass_no_clone subs :
  Forall (λ e, is_clone e = false) (submodule_pass subs).
Proof. induction subs; simpl; repeat constructor; done. Qed.
End PrepareSource.

(** C7.  Without a remote URL, [prepare_source] succeeds exactly when the
    source directory exists, and then does nothing; when the directory is
    missing it fails with a message that names it.  Git is not called, so
    this holds whatever git would do. *)
Theorem prepare_source_without_remote
    (clone_from : string → string → string → M unit)
    (submodule_update : string → string → M unit)
    (args : Args) (w : World) :
  icon_git_repo args = None →
  ((∃ w', prepare_source clone_from submodule_update args w = (Ok tt, w'))
   ↔ dir_exists (icon_dir args) w = true)
  ∧ (dir_exists (icon_dir args) w = true →
     prepare_source clone_from submodule_update args w = (Ok tt, w))
  ∧ (dir_exists (icon_dir args) w = false →
       prepare_source clone_from submodule_update args w
       = (Raise (AssertionError (Some
           ("ICON source dir " +:+ dq +:+ icon_dir args +:+ dq +:+ " does not exist"))), w)).
Proof.
  intros Hrepo. unfold prepare_source. rewrite Hrepo.
  unfold bind, gets. simpl.
  destruct (dir_exists (icon_dir args) w); simpl; split_and!; try done.
  - split; [done | by exists w].
  - split; [by intros [w' ?] | done].
Qed.

Lemma prepare_source_without_remote_witness :
  prepare_source clone_offered submodule_update_quiet args_default w_empty
  = (Raise (AssertionError (Some
      ("ICON source dir " +:+ dq +:+ "/src/icon" +:+ dq +:+ " does not exist"))), w_empty).
Proof.
  apply (prepare_source_without_remote clone_offered submodule_update_quiet
           args_default w_empty); reflexivity.
Defined.

(** C4 (refuted as stated).  The working copy at the source directory is on
    the requested remote and branch, but the remote of one of its
    submodules cannot be reached: [prepare_source] does not succeed, it
    fails with the error of git in the submodule pass. *)
Lemma prepare_source_unreachable_submodule :
  dir_exists "/src/icon" w_checkout = true
  ∧ repos w_checkout !! "/src/icon" = Some co_icon
  ∧ origin_url co_icon = icon_git_repo (args_git None)
  ∧ active_branch co_icon = Some "master"
  ∧ prepare_source clone_offered submodule_update_unreachable (args_git None) w_checkout
    = (Raise GitCommandError,
       add_events [EvPrint (tab +:+ "Source directory " +:+ dq +:+ "/src/icon"
                            +:+ dq +:+ " not empty");
                   EvPrint (tab +:+ "Updating submodules...");
                   EvPrint (tab +:+ "externals/cdi");
                   EvSubmoduleUpdate "externals/cdi"] w_checkout).
Proof. by split_and!. Qed.

(** C4 (amended).  The source directory holds a working copy whose origin
    is [R] and whose branch is [B].  Asked for the same remote and branch
    (the branch defaults to master), [prepare_source] does not clone: it
    prints two lines and then is the submodule pass over the submodules of
    the working copy, so that it succeeds when that pass does and fails
    with the failure of git otherwise.  Asked for another remote, or for the
    same remote and another branch, it fails with the corresponding
    mismatch message before anything but the first line is printed.  All
    this holds whatever the two calls into git would do. *)
Theorem prepare_source_existing_checkout
    (clone_from : string → string → string → M unit)
    (submodule_update : string → string → M unit)
    (args : Args) (w : World) (co : Checkout) (R B R' : string) :
  icon_git_repo args = Some R' →
  dir_exists (icon_dir args) w = true →
  repos w !! icon_dir args = Some co →
  origin_url co = Some R →
  active_branch co = Some B →
  let B' := default "master" (icon_git_branch args) in
  let seen := EvPrint (tab +:+ "Source directory " +:+ dq +:+ icon_dir args +:+ dq
                       +:+ " not empty") in
  (R' = R → B' = B →
     prepare_source clone_from submodule_update args w
     = update_submodules submodule_update (icon_dir args) (submodules co)
         (add_events [seen; EvPrint (tab +:+ "Updating submodules...")] w))
  ∧ (R' ≠ R →
     prepare_source clone_from submodule_update args w
     = (Raise (AssertionError (Some (msg_other_repo R))), add_events [seen] w))
  ∧ (R' = R → B' ≠ B →
     prepare_source clone_from submodule_update args w
     = (Raise (AssertionError (Some (msg_other_branch B))), add_events [seen] w)).
Proof.
  intros Hrepo Hdir Hco HR HB B' seen.
  unfold prepare_source. rewrite Hrepo. fold B'.
  unfold open_repo, remote_url, active_branch_name. run.
  rewrite Hdir. run. rewrite Hco, HR. run. rewrite HB.
  split_and!.
  - intros -> HBB. rewrite !bool_decide_eq_true_2 by done. run.
    rewrite Hco, add_events_app. reflexivity.
  - intros Hne. by rewrite bool_decide_eq_false_2.
  - intros -> Hne. rewrite bool_decide_eq_true_2 by done. run.
    by rewrite bool_decide_eq_false_2.
Qed.

Lemma prepare_source_existing_checkout_witness :
  prepare_source clone_offered submodule_update_quiet (args_git None) w_checkout
  = (Ok tt, add_events [EvPrint (tab +:+ "Source directory " +:+ dq +:+ "/src/icon"
                                 +:+ dq +:+ " not empty");
                        EvPrint (tab +:+ "Updating submodules...");
                        EvPrint (tab +:+ "externals/cdi");
                        EvSubmoduleUpdate "externals/cdi";
                        EvPrint (tab +:+ "externals/yac");
                        EvSubmoduleUpdate "externals/yac"] w_checkout)
  ∧ prepare_source clone_offered submodule_update_quiet (args_git (Some "dev")) w_checkout
    = (Raise (AssertionError (Some (msg_other_branch "master"))),
       add_events [EvPrint (tab +:+ "Source directory " +:+ dq +:+ "/src/icon"
                            +:+ dq +:+ " not empty")] w_checkout).
Proof.
  split.
  - pose proof (prepare_source_existing_checkout clone_offered submodule_update_quiet
                  (args_git None) w_checkout co_icon icon_url "master" icon_url
                  eq_refl eq_refl eq_refl eq_refl eq_refl) as H.
    cbv zeta in H. destruct H as (H & _ & _).
    exact (eq_trans (H eq_refl eq_refl) eq_refl).
  - pose proof (prepare_source_existing_checkout clone_offered submodule_update_quiet
                  (args_git (Some "dev")) w_checkout co_icon icon_url "master" icon_url
                  eq_refl eq_refl eq_refl eq_refl eq_refl) as H.
    cbv zeta in H. destruct H as (_ & _ & H).
    apply H; [reflexivity | discriminate].
Defined.

(** ** The dependency verifier *)

Section CheckDependencies.
Lemma check_dependency_ok dep w :
  dep_ok dep w = true →
  check_dependency dep w = (Ok tt, add_events [EvPrint (tab +:+ name dep)] w).
Proof.
  unfold dep_ok, pkg_installed, header_present, lib_present.
  intros [[Hpkg%bool_decide_eq_true Hh]%andb_true_iff Hl]%andb_true_iff.
  unfold check_dependency. run. rewrite Hpkg. run.
  rewrite file_exists_add_events, Hh. run. by rewrite file_exists_add_events, Hl.
Qed.

Lemma check_dependency_fails dep w :
  dep_ok dep w = false →
  ∃ msg, check_dependency dep w
         = (Raise (AssertionError (Some msg)), add_events [EvPrint (tab +:+ name dep)] w)
       ∧ (pkg_installed dep w = false → contains msg (apt_package dep))
       ∧ (pkg_installed dep w = true → header_present dep w = false →
            contains msg (test_h dep) ∧ contains msg (include_dir dep))
       ∧ (pkg_installed dep w = true → header_present dep w = true →
            contains msg (lib dep) ∧ contains msg (lib_dir dep)).
Proof.
  unfold dep_ok, pkg_installed, header_present, lib_present.
  intros Hbad. unfold check_dependency. run.
  destruct (apt_cache w !! apt_package dep) as [[]|] eqn:Hpkg; run.
  - rewrite bool_decide_eq_true_2 in * by done. simpl in Hbad.
    rewrite file_exists_add_events.
    destruct (file_exists (join_path (include_dir dep) (test_h dep)) w) eqn:Hh; run.
    + simpl in Hbad. rewrite file_exists_add_events, Hbad. eexists; split_and!; [done|done|done|].
      intros _ _. split.
      * apply (contains_intro ("Header " +:+ dq)).
      * exists ("Header " +:+ dq +:+ lib dep +:+ dq +:+ " not found at "), EmptyString.
        by rewrite str_app_nil_r, !str_app_assoc.
    + eexists; split_and!; [done|done| |done].
      intros _ _. split.
      * apply (contains_intro ("Header " +:+ dq)).
      * exists ("Header " +:+ dq +:+ test_h dep +:+ dq +:+ " not found at "), EmptyString.
        by rewrite str_app_nil_r, !str_app_assoc.
  - eexists; split_and!; [done| |done..].
    intros _. apply (contains_intro ("Install " +:+ dq)).
  - eexists; split_and!; [done| |done..].
    intros _. apply (contains_intro (tab +:+ tab +:+ "Apt package " +:+ dq)).
Qed.

Lemma check_dependencies_all_ok deps w :
  Forall (λ d, dep_ok d w = true) deps →
  check_dependencies deps w = (Ok tt, add_events (names_printed deps) w).
Proof.
  unfold check_dependencies. revert w.
  induction deps as [|d deps IH]; intros w Hall.
  - simpl. unfold ret. by rewrite add_events_nil.
  - apply Forall_cons in Hall as [Hd Hall]. simpl. unfold bind.
    rewrite check_dependency_ok by done.
    rewrite IH by done. by rewrite add_events_app.
Qed.
End CheckDependencies.

(** C6.  The verifier goes through the catalog in order.  When every
    descriptor has its package installed, its header and its library, the
    run succeeds after the whole catalog.  Otherwise it stops at the first
    descriptor that lacks one of the three, in the order package, header,
    library: nothing after it is looked at, and the failure message names
    the missing package or the missing file (and its directory). *)
Theorem check_dependencies_fail_fast (w : World) :
  (∀ deps, Forall (λ d, dep_ok d w = true) deps →
     check_dependencies deps w = (Ok tt, add_events (names_printed deps) w))
  ∧ (∀ pre d post,
       Forall (λ d, dep_ok d w = true) pre →
       dep_ok d w = false →
       ∃ msg,
         check_dependencies (pre ++ d :: post) w
         = (Raise (AssertionError (Some msg)),
            add_events (names_printed (pre ++ [d])) w)
         ∧ (pkg_installed d w = false → contains msg (apt_package d))
         ∧ (pkg_installed d w = true → header_present d w = false →
              contains msg (test_h d) ∧ contains msg (include_dir d))
         ∧ (pkg_installed d w = true → header_present d w = true →
              contains msg (lib d) ∧ contains msg (lib_dir d))).
Proof.
  split; [intros deps; apply check_dependencies_all_ok|].
  intros pre d post Hpre Hd.
  destruct (check_dependency_fails d (add_events (names_printed pre) w) Hd)
    as (msg & Hrun & Hmsg).
  exists msg. split; [|exact Hmsg].
  unfold check_dependencies. rewrite for_each_app.
  fold (check_dependencies pre). rewrite check_dependencies_all_ok by done.
  simpl. unfold bind. rewrite Hrun. rewrite add_events_app.
  unfold names_printed. by rewrite fmap_app.
Qed.

Lemma check_dependencies_fail_fast_witness :
  check_dependencies (take 1 DEPS) w_blas_header_missing
  = (Ok tt, add_events [EvPrint (tab +:+ "lapack")] w_blas_header_missing)
  ∧ (check_dependencies DEPS w_blas_header_missing).2
    = add_events [EvPrint (tab +:+ "lapack"); EvPrint (tab +:+ "blas")]
        w_blas_header_missing.
Proof.
  destruct (check_dependencies_fail_fast w_blas_header_missing) as [Hok Hbad].
  split.
  - apply (Hok (take 1 DEPS)). repeat constructor.
  - destruct (Hbad (take 1 DEPS)
                (DepInfo "blas" "libblas-dev" "/usr/include/x86_64-linux-gnu"
                   "/usr/lib/x86_64-linux-gnu/blas" "cblas.h" "libblas.so")
                (drop 2 DEPS)) as (msg & Hrun & _).
    + repeat constructor.
    + reflexivity.
    + exact (f_equal snd Hrun).
Defined.

(** ** The filesystem *)

Section Filesystem.
Implicit Types (p path txt : string) (w : World) (fs : gmap string node).

Lemma lookup_mkdir_all ps fs k :
  mkdir_all ps fs !! k = if bool_decide (k ∈ ps) then Some Dir else fs !! k.
Proof.
  induction ps as [|q ps IH]; simpl; [done|].
  rewrite lookup_insert, IH. destruct (decide (q = k)) as [->|Hqk].
  - rewrite bool_decide_eq_true_2; [done | apply elem_of_cons; by left].
  - destruct (decide (k ∈ ps)) as [Hin|Hin].
    + rewrite !bool_decide_eq_true_2; [done | apply elem_of_cons; by right | done].
    + rewrite !bool_decide_eq_false_2; [done | | done].
      intros [?|?]%elem_of_cons; congruence.
Qed.

Lemma path_isdir_not_isfile p w : path_isdir p w = true → path_isfile p w = false.
Proof. unfold path_isdir, path_isfile. by destruct (nodes w !! p) as [[]|]. Qed.

Lemma dir_exists_isdir p w : dir_exists p w = path_isdir p w.
Proof.
  unfold dir_exists, path_exists, path_isdir.
  by destruct (nodes w !! p) as [[]|].
Qed.

Lemma file_exists_isfile p w : file_exists p w = path_isfile p w.
Proof.
  unfold file_exists, path_exists, path_isfile.
  by destruct (nodes w !! p) as [[]|].
Qed.

Lemma makedirs_run p w :
  makedirs p w
  = let w1 := add_events [EvMakedirs p] w in
    if bool_decide (p = EmptyString) then (Raise FileNotFoundError, w1)
    else if existsb (λ a, path_isfile a w) (ancestors (rstrip_slash p))
         then (Raise NotADirectoryError, w1)
    else if existsb (λ a, path_isfile a w) (ancestors p) || path_isfile p w
         then (Raise FileExistsError, w1)
    else (Ok tt, with_nodes (mkdir_all (ancestors p ++ [p])) w1).
Proof.
  unfold makedirs. run.
  change (existsb _ (ancestors (rstrip_slash p)))
    with (existsb (λ a, path_isfile a w) (ancestors (rstrip_slash p))).
  change (existsb _ (ancestors p)) with (existsb (λ a, path_isfile a w) (ancestors p)).
  change (path_isfile p (add_events _ w)) with (path_isfile p w).
  repeat case_match; done.
Qed.

(** No file among the ancestors of a path: none above its last component. *)
Lemma no_file_above p w :
  existsb (λ a, path_isfile a w) (ancestors p) = false →
  existsb (λ a, path_isfile a w) (ancestors (rstrip_slash p)) = false.
Proof.
  intros Hanc. apply not_true_is_false. intros (a & Ha & Hf)%existsb_exists.
  assert (existsb (λ a, path_isfile a w) (ancestors p) = true); [|congruence].
  apply existsb_exists. exists a. split; [|done].
  by apply list_elem_of_In, ancestors_rstrip_slash, list_elem_of_In.
Qed.

Lemma makedirs_ok p w :
  p ≠ EmptyString →
  existsb (λ a, path_isfile a w) (ancestors p) = false →
  path_isfile p w = false →
  makedirs p w
  = (Ok tt, with_nodes (mkdir_all (ancestors p ++ [p])) (add_events [EvMakedirs p] w)).
Proof.
  intros Hne Hanc Hfile. rewrite makedirs_run. cbv zeta.
  by rewrite bool_decide_eq_false_2, (no_file_above p w Hanc), Hanc, Hfile.
Qed.

Lemma read_text_file p w old t :
  nodes w !! p = Some (File old t) →
  read_text p w = (Ok old, add_events [EvRead p] w).
Proof. intros H. unfold read_text. run. by rewrite H. Qed.

Lemma remove_file p w old t :
  nodes w !! p = Some (File old t) →
  remove p w = (Ok tt, with_nodes (delete p) (add_events [EvRemove p] w)).
Proof. intros H. unfold remove. run. by rewrite H. Qed.

Lemma write_text_dir p txt w :
  path_isdir p w = true →
  write_text p txt w = (Raise IsADirectoryError, add_events [EvWrite p txt] w).
Proof.
  intros H. unfold write_text. run.
  change (path_isdir p (add_events _ w)) with (path_isdir p w). by rewrite H.
Qed.

Lemma write_text_ok p txt w :
  path_isdir p w = false →
  (∀ a, a ∈ ancestors p → path_isdir a w = true) →
  write_text p txt w = (Ok tt, written p txt (add_events [EvWrite p txt] w)).
Proof.
  intros Hp Hanc. unfold write_text. run.
  change (path_isdir p (add_events _ w)) with (path_isdir p w). rewrite Hp.
  change (existsb _ (ancestors p)) with (existsb (λ a, path_isfile a w) (ancestors p)).
  change (forallb _ (ancestors p)) with (forallb (λ a, path_isdir a w) (ancestors p)).
  assert (existsb (λ a, path_isfile a w) (ancestors p) = false) as ->.
  { apply not_true_is_false. intros (a & Ha & Hf)%existsb_exists.
    apply list_elem_of_In, Hanc, path_isdir_not_isfile in Ha. congruence. }
  assert (forallb (λ a, path_isdir a w) (ancestors p) = true) as ->; [|done].
  apply forallb_forall. intros a Ha. by apply Hanc, list_elem_of_In.
Qed.

(** *** The script path and the build directory *)

Lemma cfg_path_cases args :
  build_dir args ≠ EmptyString →
  cfg_path args = build_dir args +:+ "configure.sh"
  ∧ ancestors (cfg_path args) = ancestors (build_dir args)
  ∨ cfg_path args = build_dir args +:+ "/configure.sh"
    ∧ ancestors (cfg_path args) = (ancestors (build_dir args) ++ [build_dir args])%list.
Proof.
  intros Hne. unfold cfg_path, join_path. simpl startswith. cbv iota.
  rewrite bool_decide_eq_false_2 by done. simpl orb.
  unfold ancestors. destruct (endswith "/" (build_dir args)); [left|right].
  - split; [done|]. rewrite ancestors_from_app. simpl. apply app_nil_r.
  - split; [done|]. rewrite ancestors_from_app. simpl.
    by rewrite bool_decide_eq_false_2.
Qed.

Lemma cfg_path_longer args :
  (String.length (build_dir args) < String.length (cfg_path args))%nat.
Proof.
  unfold cfg_path, join_path. simpl startswith. cbv iota.
  destruct (_ || _); rewrite !str_length_app; simpl; lia.
Qed.

Lemma cfg_path_fresh args :
  cfg_path args ∉ (ancestors (build_dir args) ++ [build_dir args])%list.
Proof.
  pose proof (cfg_path_longer args) as Hlt.
  intros [Hin|Hin]%elem_of_app.
  - apply ancestors_shorter in Hin. lia.
  - apply list_elem_of_singleton in Hin. rewrite Hin in Hlt. lia.
Qed.

Lemma cfg_path_ancestors args a :
  build_dir args ≠ EmptyString →
  a ∈ ancestors (cfg_path args) →
  a ∈ (ancestors (build_dir args) ++ [build_dir args])%list.
Proof.
  intros Hne Ha. destruct (cfg_path_cases args Hne) as [[_ E]|[_ E]];
    rewrite E in Ha; [apply elem_of_app; by left | done].
Qed.
End Filesystem.

(** ** The script generator *)

Section GeneratorFacts.
Variable it : gset string → list string.
Implicit Types (args : Args) (w : World) (deps : list DependencyInfo).

(** With the switch off and a catalog whose names all pass the assertion,
    the generator is the sequence of its four filesystem steps. *)
Lemma generate_unfold deps args w sc :
  scan_deps deps ∅ ∅ [] = Ok sc →
  mpi args = false →
  generate_configure_script it deps args w
  = (makedirs (build_dir args) ;;
     (do present <- gets (file_exists (cfg_path args));
      if present : bool then
        do txt <- read_text (cfg_path args);
        if bool_decide (script_of it args sc ≠ txt) then remove (cfg_path args)
        else ret tt
      else ret tt) ;;
     write_text (cfg_path args) (script_of it args sc) ;;
     ret (cfg_path args, script_of it args sc)) w.
Proof.
  intros Hs Hm. unfold generate_configure_script, lift. unfold bind at 1.
  rewrite Hs. destruct sc as [[incs libds] libs]. by rewrite Hm.
Qed.

Lemma build_dir_usable_spec args w :
  build_dir_usable args w = true ↔
    build_dir args ≠ EmptyString
    ∧ existsb (λ a, path_isfile a w) (ancestors (build_dir args)) = false
    ∧ path_isfile (build_dir args) w = false
    ∧ path_isdir (cfg_path args) w = false.
Proof.
  unfold build_dir_usable.
  rewrite !andb_true_iff, !negb_true_iff, bool_decide_eq_false. tauto.
Qed.

(** After [makedirs], every ancestor of the script path is a directory. *)
Lemma ancestors_made args w es a :
  build_dir args ≠ EmptyString →
  a ∈ ancestors (cfg_path args) →
  path_isdir a (with_nodes (mkdir_all (ancestors (build_dir args) ++ [build_dir args]))
                  (add_events es w)) = true.
Proof.
  intros Hne Ha. unfold path_isdir. simpl. rewrite lookup_mkdir_all.
  rewrite bool_decide_eq_true_2; [done | by apply cfg_path_ancestors].
Qed.

Lemma cfg_path_after_makedirs args w es :
  nodes (with_nodes (mkdir_all (ancestors (build_dir args) ++ [build_dir args]))
           (add_events es w)) !! cfg_path args
  = nodes w !! cfg_path args.
Proof.
  simpl. rewrite lookup_mkdir_all.
  rewrite bool_decide_eq_false_2; [done | apply cfg_path_fresh].
Qed.

(** The middle step: what becomes of an earlier script. *)
Lemma reconcile_run path txt w :
  (do present <- gets (file_exists path);
   if present : bool then
     do old <- read_text path;
     if bool_decide (txt ≠ old) then remove path else ret tt
   else ret tt) w
  = (Ok tt,
     match nodes w !! path with
     | Some (File old _) =>
         if bool_decide (txt ≠ old)
         then with_nodes (delete path) (add_events [EvRead path; EvRemove path] w)
         else add_events [EvRead path] w
     | _ => w
     end).
Proof.
  unfold bind at 1. unfold gets. rewrite file_exists_isfile. unfold path_isfile.
  destruct (nodes w !! path) as [[old t|]|] eqn:Hnode; try done.
  rewrite (bind_ok _ _ _ _ _ (read_text_file path w old t Hnode)).
  destruct (bool_decide (txt ≠ old)); [|done].
  rewrite (remove_file path _ old t) by done. by rewrite add_events_app.
Qed.

(** The middle step and the write, in a world where the directories on
    the way to the script are in place. *)
Lemma reconcile_write_run path txt w :
  (∀ a, a ∈ ancestors path → nodes w !! a = Some Dir) →
  nodes w !! path ≠ Some Dir →
  ((do present <- gets (file_exists path);
    if present : bool then
      do old <- read_text path;
      if bool_decide (txt ≠ old) then remove path else ret tt
    else ret tt) ;;
   write_text path txt ;;
   ret (path, txt)) w
  = (Ok (path, txt),
     written path txt (add_events (reconcile_events path txt w ++ [EvWrite path txt]) w)).
Proof.
  intros Hmade Hnotdir.
  rewrite (bind_ok _ _ _ _ _ (reconcile_run path txt w)).
  unfold reconcile_events.
  destruct (nodes w !! path) as [[old t|]|] eqn:Hnode; [|done|].
  - destruct (bool_decide (txt ≠ old)) eqn:Hdiff.
    + erewrite bind_ok; [|apply write_text_ok].
      * unfold ret. f_equal. unfold written, with_nodes, add_events. simpl.
        f_equal; [by rewrite insert_delete_eq | by rewrite <- !app_assoc].
      * unfold path_isdir. simpl. by rewrite lookup_delete_eq.
      * intros a Ha. unfold path_isdir. simpl.
        rewrite lookup_delete_ne; [by rewrite (Hmade a Ha)|].
        intros <-. apply ancestors_shorter in Ha. lia.
    + erewrite bind_ok; [|apply write_text_ok].
      * unfold ret. f_equal. unfold written, with_nodes, add_events. simpl.
        f_equal. by rewrite <- !app_assoc.
      * unfold path_isdir. simpl. by rewrite Hnode.
      * intros a Ha. unfold path_isdir. simpl. by rewrite (Hmade a Ha).
  - erewrite bind_ok; [|apply write_text_ok].
    + done.
    + unfold path_isdir. simpl. by rewrite Hnode.
    + intros a Ha. unfold path_isdir. simpl. by rewrite (Hmade a Ha).
Qed.

(** The whole run, when nothing stands in the way. *)
Lemma generate_run deps args w sc :
  scan_deps deps ∅ ∅ [] = Ok sc →
  mpi args = false →
  build_dir_usable args w = true →
  generate_configure_script it deps args w
  = (Ok (cfg_path args, script_of it args sc),
     after_generate args (script_of it args sc) w).
Proof.
  intros Hs Hm (Hne & Hanc & Hfile & Hdir)%build_dir_usable_spec.
  rewrite (generate_unfold _ _ _ _ Hs Hm).
  set (txt := script_of it args sc). set (path := cfg_path args).
  set (p := build_dir args) in *.
  set (w1 := with_nodes (mkdir_all (ancestors p ++ [p])) (add_events [EvMakedirs p] w)).
  assert (Hmk : makedirs p w = (Ok tt, w1)) by by apply makedirs_ok.
  assert (Hlook : nodes w1 !! path = nodes w !! path)
    by apply cfg_path_after_makedirs.
  assert (Hmade : ∀ a, a ∈ ancestors path → nodes w1 !! a = Some Dir).
  { intros a Ha. pose proof (ancestors_made args w [EvMakedirs p] a Hne Ha) as Hd.
    unfold path_isdir in Hd. fold p w1 in Hd. by destruct (nodes w1 !! a) as [[]|]. }
  rewrite (bind_ok _ _ _ _ _ Hmk).
  rewrite reconcile_write_run; [|done|].
  - f_equal. unfold after_generate, reconcile_events. fold p path.
    rewrite Hlook. unfold written, with_nodes, add_events, w1. simpl.
    f_equal. by rewrite <- app_assoc.
  - rewrite Hlook. unfold path_isdir in Hdir. fold path in Hdir.
    by destruct (nodes w !! path) as [[]|].
Qed.

(** ... and when something does. *)
Lemma generate_blocked deps args w sc :
  scan_deps deps ∅ ∅ [] = Ok sc →
  mpi args = false →
  build_dir_usable args w = false →
  ∃ e w', generate_configure_script it deps args w = (Raise e, w').
Proof.
  intros Hs Hm Hbad. rewrite (generate_unfold _ _ _ _ Hs Hm).
  set (txt := script_of it args sc). set (path := cfg_path args).
  set (p := build_dir args).
  pose proof (makedirs_run p w) as Hmk. cbv zeta in Hmk.
  destruct (bool_decide (p = EmptyString)) eqn:H1;
    [by rewrite (bind_raise _ _ _ _ _ Hmk); eauto|].
  destruct (existsb (λ a, path_isfile a w) (ancestors (rstrip_slash p))) eqn:H0;
    [by rewrite (bind_raise _ _ _ _ _ Hmk); eauto|].
  destruct (existsb (λ a, path_isfile a w) (ancestors p)) eqn:H2;
    [by rewrite (bind_raise _ _ _ _ _ Hmk); eauto|].
  destruct (path_isfile p w) eqn:H3;
    [by rewrite (bind_raise _ _ _ _ _ Hmk); eauto|].
  simpl in Hmk.
  rewrite (bind_ok _ _ _ _ _ Hmk).
  rewrite (bind_ok _ _ _ _ _ (reconcile_run path txt _)).
  pose proof (cfg_path_after_makedirs args w [EvMakedirs p]) as Hlook.
  fold p path in Hlook. rewrite Hlook.
  unfold build_dir_usable in Hbad. fold p path in Hbad.
  rewrite H1, H2, H3 in Hbad. simpl in Hbad. apply negb_false_iff in Hbad.
  unfold path_isdir in Hbad.
  destruct (nodes w !! path) as [[]|] eqn:Hnode; try done.
  erewrite bind_raise; [eauto|]. apply write_text_dir.
  unfold path_isdir. by rewrite Hlook.
Qed.

Lemma generate_ok_inv deps args w r w' :
  generate_configure_script it deps args w = (Ok r, w') →
  ∃ sc, scan_deps deps ∅ ∅ [] = Ok sc ∧ mpi args = false
        ∧ build_dir_usable args w = true
        ∧ r = (cfg_path args, script_of it args sc)
        ∧ w' = after_generate args (script_of it args sc) w.
Proof.
  intros Hrun.
  destruct (scan_deps deps ∅ ∅ []) as [sc|e] eqn:Hs.
  2:{ unfold generate_configure_script, lift in Hrun. unfold bind at 1 in Hrun.
      by rewrite Hs in Hrun. }
  destruct (mpi args) eqn:Hm.
  { unfold generate_configure_script, lift in Hrun. unfold bind at 1 in Hrun.
    rewrite Hs in Hrun. destruct sc as [[? ?] ?]. by rewrite Hm in Hrun. }
  destruct (build_dir_usable args w) eqn:Hu.
  - rewrite (generate_run _ _ _ _ Hs Hm Hu) in Hrun.
    exists sc. by simplify_eq.
  - destruct (generate_blocked _ _ _ _ Hs Hm Hu) as (e & w'' & Hr). congruence.
Qed.

(** The first loop can only fail on its assertion. *)
Lemma scan_deps_raise deps incs libds libs e :
  scan_deps deps incs libds libs = Raise e → e = AssertionError None.
Proof.
  revert incs libds libs. induction deps as [|d deps IH]; intros incs libds libs; simpl.
  - done.
  - unfold link_name. destruct (startswith "lib" (lib d)); [apply IH | congruence].
Qed.

Lemma generate_mpi deps args w :
  mpi args = true →
  generate_configure_script it deps args w
  = (Raise (AssertionError
             (match scan_deps deps ∅ ∅ [] with
              | Ok _ => Some msg_not_implemented
              | Raise _ => None
              end)), w).
Proof.
  intros Hm. unfold generate_configure_script, lift. unfold bind at 1.
  destruct (scan_deps deps ∅ ∅ []) as [[[? ?] ?]|e] eqn:Hs.
  - by rewrite Hm.
  - by rewrite (scan_deps_raise _ _ _ _ _ Hs).
Qed.

Lemma dir_exists_after_generate args txt w a :
  a ∈ (ancestors (build_dir args) ++ [build_dir args])%list →
  dir_exists a (after_generate args txt w) = true.
Proof.
  intros Ha. rewrite dir_exists_isdir. unfold path_isdir, after_generate. simpl.
  rewrite lookup_insert_ne, lookup_mkdir_all.
  - by rewrite bool_decide_eq_true_2.
  - intros <-. by apply cfg_path_fresh in Ha.
Qed.

(** Whatever was at the script path before, a successful run leaves the
    rendered text there and nothing of the old one. *)
Lemma generate_replaces_script deps args w sc :
  scan_deps deps ∅ ∅ [] = Ok sc →
  mpi args = false →
  build_dir_usable args w = true →
  ∃ w', generate_configure_script it deps args w
        = (Ok (cfg_path args, script_of it args sc), w')
        ∧ nodes w' !! cfg_path args = Some (File (script_of it args sc) (clock w)).
Proof.
  intros Hs Hm Hu. eexists. split; [by apply generate_run|].
  unfold after_generate. simpl. apply lookup_insert_eq.
Qed.
End GeneratorFacts.

Lemma scan_DEPS : scan_deps DEPS ∅ ∅ [] = Ok DEPS_scanned.
Proof. vm_compute. reflexivity. Qed.

(** C3.  With [mpi] switched on the generator raises an assertion failure
    and leaves the world exactly as it found it: nothing has been made,
    read, removed or written.  With the catalog of the script the message
    is "Not implemented". *)
Theorem generate_mpi_not_implemented
    (it : gset string → list string) (args : Args) (w : World) :
  mpi args = true →
  generate_configure_script it DEPS args w
  = (Raise (AssertionError (Some "Not implemented")), w)
  ∧ ∀ deps, ∃ msg,
      generate_configure_script it deps args w = (Raise (AssertionError msg), w).
Proof.
  intros Hm. split.
  - by rewrite (generate_mpi it DEPS args w Hm), scan_DEPS.
  - intros deps. eexists. by apply generate_mpi.
Qed.

Lemma generate_mpi_not_implemented_witness :
  generate_configure_script elements DEPS args_mpi w_same_script
  = (Raise (AssertionError (Some "Not implemented")), w_same_script).
Proof.
  apply (generate_mpi_not_implemented elements args_mpi w_same_script). reflexivity.
Defined.

(** C8.  Every library file name of the catalog is [lib], a stem, and one of
    the suffixes [.so] and [.a]; the generator's first loop succeeds on the
    catalog, and the link names it collects are these stems, in catalog
    order.  For a name of this shape the link name is the stem, whatever the
    stem is. *)
Theorem DEPS_link_names :
  (∃ incs libds stems,
     scan_deps DEPS ∅ ∅ [] = Ok (incs, libds, stems)
     ∧ Forall2 (λ d stem,
         startswith "lib" (lib d) = true
         ∧ (endswith ".so" (lib d) = true ∨ endswith ".a" (lib d) = true)
         ∧ (∃ suffix, (suffix = ".so" ∨ suffix = ".a")
                      ∧ lib d = "lib" +:+ stem +:+ suffix)
         ∧ link_name (lib d) = Ok stem) DEPS stems)
  ∧ (∀ stem, link_name ("lib" +:+ stem +:+ ".so") = Ok stem
             ∧ link_name ("lib" +:+ stem +:+ ".a") = Ok stem).
Proof.
  split; [|intros stem; split; [apply link_name_so | apply link_name_a]].
  eexists _, _, _. split; [apply scan_DEPS|].
  unfold DEPS.
  repeat (constructor;
          [split_and!;
           [reflexivity | left; reflexivity
           | exists ".so"; split; [by left | reflexivity] | reflexivity] |]).
  constructor.
Qed.

(** C9.  With [mpi] off: a run that succeeds has called [makedirs] on the
    build directory before it wrote the script, and ends with the build
    directory and all its ancestors in place.  A build directory that does
    not exist yet is no obstacle: unless a regular file or a directory
    blocks one of the paths involved, the run succeeds. *)
Theorem generate_makes_build_dir
    (it : gset string → list string) (args : Args) (w : World) :
  mpi args = false →
  (∀ r w', generate_configure_script it DEPS args w = (Ok r, w') →
     dir_exists (build_dir args) w' = true
     ∧ Forall (λ a, dir_exists a w' = true) (ancestors (build_dir args))
     ∧ ∃ mid, trace w' = (trace w ++ EvMakedirs (build_dir args) :: mid
                                  ++ [EvWrite r.1 r.2])%list)
  ∧ (dir_exists (build_dir args) w = false →
     build_dir_usable args w = true →
     ∃ r w', generate_configure_script it DEPS args w = (Ok r, w')
             ∧ dir_exists (build_dir args) w' = true).
Proof.
  intros Hm. split.
  - intros r w' (sc & _ & _ & _ & -> & ->)%generate_ok_inv. split_and!.
    + apply dir_exists_after_generate, elem_of_app. right. apply list_elem_of_singleton. done.
    + apply Forall_forall. intros a Ha.
      apply dir_exists_after_generate, elem_of_app. by left.
    + by eexists.
  - intros _ Hu. eexists _, _. split.
    + by apply (generate_run it DEPS args w DEPS_scanned scan_DEPS).
    + apply dir_exists_after_generate, elem_of_app. right. apply list_elem_of_singleton. done.
Qed.

Lemma generate_makes_build_dir_witness :
  ∃ r w', generate_configure_script elements DEPS args_default w_empty = (Ok r, w')
          ∧ dir_exists "/build/icon" w' = true.
Proof.
  destruct (generate_makes_build_dir elements args_default w_empty eq_refl) as [_ H].
  apply H; reflexivity.
Defined.

(** C1 (what the code does).  When the script on disk already has the
    rendered text, the generator reads it, removes nothing, and then opens
    and writes it all the same: the write is among the events of the run and
    the file carries the time of the run, not the time it had. *)
Theorem generate_rewrites_identical_script
    (it : gset string → list string) (args : Args) (w : World) (t : nat) :
  mpi args = false →
  build_dir_usable args w = true →
  nodes w !! cfg_path args = Some (File (script_of it args DEPS_scanned) t) →
  ∃ txt w',
    generate_configure_script it DEPS args w = (Ok (cfg_path args, txt), w')
    ∧ trace w' = (trace w ++ [EvMakedirs (build_dir args);
                              EvRead (cfg_path args);
                              EvWrite (cfg_path args) txt])%list
    ∧ nodes w' !! cfg_path args = Some (File txt (clock w))
    ∧ (t < clock w → nodes w' !! cfg_path args ≠ nodes w !! cfg_path args).
Proof.
  intros Hm Hu Hnode. eexists _, _. split.
  { by apply (generate_run it DEPS args w DEPS_scanned scan_DEPS). }
  unfold after_generate, reconcile_events. rewrite Hnode. simpl.
  rewrite bool_decide_eq_false_2 by (by intros []).
  rewrite lookup_insert_eq. split_and!; [done..|].
  intros Hlt [= ?]. lia.
Qed.

Lemma generate_rewrites_identical_script_witness :
  ∃ txt w',
    generate_configure_script elements DEPS args_default w_same_script
    = (Ok ("/build/icon/configure.sh", txt), w')
    ∧ trace w' = [EvMakedirs "/build/icon"; EvRead "/build/icon/configure.sh";
                  EvWrite "/build/icon/configure.sh" txt]
    ∧ nodes w_same_script !! "/build/icon/configure.sh" = Some (File txt 5)
    ∧ nodes w' !! "/build/icon/configure.sh" = Some (File txt 9).
Proof.
  destruct (generate_rewrites_identical_script elements args_default w_same_script 5
              eq_refl eq_refl eq_refl) as (txt & w' & Hrun & Htrace & Hnew & _).
  exists (script_of elements args_default DEPS_scanned), w'.
  assert (txt = script_of elements args_default DEPS_scanned) as ->.
  { pose proof (f_equal (λ x, text_of x.1) Hrun) as E. simpl in E. rewrite <- E.
    vm_compute. reflexivity. }
  split_and!; [exact Hrun | exact Htrace | reflexivity | exact Hnew].
Defined.

(** ** Determinism of the rendering *)

Section Orders.
Lemma iteration_order_elements : iteration_order elements.
Proof. by intros X. Qed.

Lemma iteration_order_elements_rev : iteration_order elements_rev.
Proof. intros X. apply reverse_Permutation. Qed.

Lemma iteration_order_singleton it x : iteration_order it → it {[x]} = [x].
Proof.
  intros Hit. apply Permutation_singleton_r.
  by rewrite (Hit {[x]}), elements_singleton.
Qed.

(** A set with at most one member can be iterated over in one way only. *)
Lemma iteration_order_small it (X : gset string) :
  iteration_order it → (size X ≤ 1)%nat → it X = elements X.
Proof.
  intros Hit Hsize. pose proof (Hit X) as Hperm.
  unfold size, set_size in Hsize. simpl in Hsize.
  destruct (elements X) as [|x [|y l]]; simpl in Hsize.
  - by apply Permutation_nil_r.
  - by apply Permutation_singleton_r.
  - lia.
Qed.

(** What the first loop returns when it succeeds. *)
Lemma scan_deps_ok deps incs libds libs sc :
  scan_deps deps incs libds libs = Ok sc →
  ∃ stems,
    sc = (incs ∪ list_to_set (include_dir <$> deps),
          libds ∪ list_to_set (lib_dir <$> deps),
          (libs ++ stems)%list)
    ∧ Forall2 (λ d stem, link_name (lib d) = Ok stem) deps stems.
Proof.
  revert incs libds libs. induction deps as [|d deps IH]; intros incs libds libs; simpl.
  - intros [= <-]. exists []. rewrite !(right_id_L ∅ (∪)), app_nil_r. by split.
  - destruct (link_name (lib d)) as [stem|e] eqn:Hl; [|done].
    intros (stems & -> & Hstems)%IH. exists (stem :: stems).
    split; [|by constructor].
    by rewrite <- !(assoc_L (∪)), <- app_assoc.
Qed.
End Orders.

(** C2 (refuted as stated).  Two runs of the interpreter may iterate over
    the same set in different orders, and then the texts differ: for the
    catalog of the script the [-I] flags come out in another order. *)
Lemma generate_depends_on_iteration_order :
  iteration_order elements ∧ iteration_order elements_rev
  ∧ text_of (generate_configure_script elements DEPS args_default w_empty).1
    ≠ text_of (generate_configure_script elements_rev DEPS args_default w_empty).1.
Proof.
  split_and!.
  - apply iteration_order_elements.
  - apply iteration_order_elements_rev.
  - rewrite !(generate_run _ DEPS args_default w_empty DEPS_scanned scan_DEPS) by done.
    simpl. refine (bool_decide_eq_false_1 _ _). vm_compute. reflexivity.
Qed.

(** C2 (amended).  Two successful runs on the same catalog and
    configuration, under two admissible iteration orders and on any two
    filesystems, return the same path, and each text is rendered from the
    catalog in this way: the [-l] flags are the link names of the
    descriptors in catalog order, the [-I] flags are the distinct include
    directories and the [-L] flags the distinct library directories of the
    catalog, in the order in which the run iterates over each set.  So the
    two texts are the same up to the order of the [-I] and of the [-L]
    flags, and they are identical as soon as the two runs iterate over the
    two sets in the same order, as they do within one process or when the
    catalog has one include directory and one library directory. *)
Theorem generate_deterministic_up_to_iteration_order
    (it1 it2 : gset string → list string) (deps : list DependencyInfo) (args : Args)
    (w1 w2 w1' w2' : World) (r1 r2 : string * string) :
  iteration_order it1 →
  iteration_order it2 →
  generate_configure_script it1 deps args w1 = (Ok r1, w1') →
  generate_configure_script it2 deps args w2 = (Ok r2, w2') →
  let incs : gset string := list_to_set (include_dir <$> deps) in
  let libds : gset string := list_to_set (lib_dir <$> deps) in
  let text (it : gset string → list string) (stems : list string) :=
    render args (join " " ((λ inc, "-I" +:+ inc) <$> it incs))
                (join " " ((λ l, "-L" +:+ l) <$> it libds))
                (join " " ((λ l, "-l" +:+ l) <$> stems)) in
  ∃ stems,
    Forall2 (λ d stem, link_name (lib d) = Ok stem) deps stems
    ∧ r1 = (cfg_path args, text it1 stems)
    ∧ r2 = (cfg_path args, text it2 stems)
    ∧ it1 incs ≡ₚ it2 incs ∧ it1 libds ≡ₚ it2 libds
    ∧ (it1 incs = it2 incs → it1 libds = it2 libds → r1 = r2)
    ∧ (it1 = it2 → r1 = r2)
    ∧ (size incs ≤ 1 → size libds ≤ 1 → r1 = r2)%nat.
Proof.
  intros Hit1 Hit2 (sc1 & Hs1 & _ & _ & -> & _)%generate_ok_inv
                   (sc2 & Hs2 & _ & _ & -> & _)%generate_ok_inv incs libds text.
  assert (sc1 = sc2) as -> by congruence.
  destruct (scan_deps_ok deps ∅ ∅ [] sc2 Hs2) as (stems & -> & Hstems).
  rewrite !(left_id_L ∅ (∪)). simpl app. fold incs libds.
  exists stems. unfold script_of. fold (text it1 stems) (text it2 stems).
  split_and!; try done.
  - by rewrite (Hit1 incs), (Hit2 incs).
  - by rewrite (Hit1 libds), (Hit2 libds).
  - intros Hi Hl. unfold text. by rewrite Hi, Hl.
  - by intros ->.
  - intros Hi Hl. unfold text.
    by rewrite (iteration_order_small it1 incs), (iteration_order_small it2 incs),
      (iteration_order_small it1 libds), (iteration_order_small it2 libds).
Qed.

Lemma generate_deterministic_up_to_iteration_order_witness :
  ∃ r1 r2 w1' w2',
    generate_configure_script elements DEPS args_default w_empty = (Ok r1, w1')
    ∧ generate_configure_script elements_rev DEPS args_default w_same_script = (Ok r2, w2')
    ∧ r1.1 = r2.1
    ∧ ∃ stems, Forall2 (λ d stem, link_name (lib d) = Ok stem) DEPS stems.
Proof.
  destruct (generate_configure_script elements DEPS args_default w_empty)
    as [[r1|e1] w1'] eqn:E1; [|by vm_compute in E1].
  destruct (generate_configure_script elements_rev DEPS args_default w_same_script)
    as [[r2|e2] w2'] eqn:E2; [|by vm_compute in E2].
  destruct (generate_deterministic_up_to_iteration_order
              elements elements_rev DEPS args_default w_empty w_same_script w1' w2' r1 r2
              iteration_order_elements iteration_order_elements_rev E1 E2)
    as (stems & Hstems & Hr1 & Hr2 & _).
  exists r1, r2, w1', w2'. split_and!; [done | done | by rewrite Hr1, Hr2 | by exists stems].
Defined.

(** ** The example scenario *)

(** C5.  For the catalog with the one descriptor of zlib and a configuration
    with gcc, gfortran, no transpiler and [mpi] off, the run succeeds
    wherever the build directory is usable, and the text it writes and
    returns sets CFLAGS to [-I/usr/include], LDFLAGS to [-L/usr/lib] and
    LIBS to [-lz]; its last line is the configure invocation, which ends in
    [--disable-mpi]. *)
Theorem generate_zlib_example
    (it : gset string → list string) (pkg : string) (args : Args) (w : World) :
  iteration_order it →
  cc args = "/usr/bin/gcc" →
  fc args = "/usr/bin/gfortran" →
  claw args = None →
  mpi args = false →
  build_dir_usable args w = true →
  let txt := zlib_script (icon_dir args) in
  generate_configure_script it (zlib_catalog pkg) args w
  = (Ok (cfg_path args, txt), after_generate args txt w)
  ∧ contains txt ("CFLAGS=" +:+ dq +:+ "-I/usr/include" +:+ dq)
  ∧ contains txt ("LDFLAGS=" +:+ dq +:+ "-L/usr/lib" +:+ dq)
  ∧ contains txt ("LIBS=" +:+ dq +:+ "-lz" +:+ dq)
  ∧ txt = zlib_exports +:+ nl +:+ icon_dir args +:+ "/configure --disable-mpi" +:+ nl.
Proof.
  intros Hit Hcc Hfc Hclaw Hm Hu txt.
  assert (Hs : scan_deps (zlib_catalog pkg) ∅ ∅ []
               = Ok ({["/usr/include"]}, {["/usr/lib"]}, ["z"])).
  { simpl. by rewrite !(left_id_L ∅ (∪)). }
  split_and!.
  - rewrite (generate_run it _ args w _ Hs Hm Hu).
    assert (script_of it args ({["/usr/include"]}, {["/usr/lib"]}, ["z"]) = txt) as ->;
      [|done].
    unfold script_of, render. rewrite !(iteration_order_singleton it) by done.
    rewrite Hcc, Hfc, Hclaw. reflexivity.
  - exists (nl +:+ "#!/bin/bash" +:+ nl
            +:+ nl +:+ "export CC=" +:+ dq +:+ "/usr/bin/gcc" +:+ dq +:+ nl
            +:+ "export FC=" +:+ dq +:+ "/usr/bin/gfortran" +:+ dq +:+ nl
            +:+ "export ").
    eexists. reflexivity.
  - exists (nl +:+ "#!/bin/bash" +:+ nl
            +:+ nl +:+ "export CC=" +:+ dq +:+ "/usr/bin/gcc" +:+ dq +:+ nl
            +:+ "export FC=" +:+ dq +:+ "/usr/bin/gfortran" +:+ dq +:+ nl
            +:+ "export CFLAGS=" +:+ dq +:+ "-I/usr/include" +:+ dq +:+ nl
            +:+ "export CPPFLAGS=" +:+ dq +:+ "-I/usr/include" +:+ dq +:+ nl
            +:+ "export FCFLAGS=" +:+ dq +:+ "-I/usr/include" +:+ dq +:+ nl
            +:+ "export ").
    eexists. reflexivity.
  - exists (nl +:+ "#!/bin/bash" +:+ nl
            +:+ nl +:+ "export CC=" +:+ dq +:+ "/usr/bin/gcc" +:+ dq +:+ nl
            +:+ "export FC=" +:+ dq +:+ "/usr/bin/gfortran" +:+ dq +:+ nl
            +:+ "export CFLAGS=" +:+ dq +:+ "-I/usr/include" +:+ dq +:+ nl
            +:+ "export CPPFLAGS=" +:+ dq +:+ "-I/usr/include" +:+ dq +:+ nl
            +:+ "export FCFLAGS=" +:+ dq +:+ "-I/usr/include" +:+ dq +:+ nl
            +:+ "export LDFLAGS=" +:+ dq +:+ "-L/usr/lib" +:+ dq +:+ nl
            +:+ "export ").
    eexists. reflexivity.
  - reflexivity.
Qed.

Lemma generate_zlib_example_witness :
  generate_configure_script elements (zlib_catalog "zlib1g-dev") args_default w_empty
  = (Ok ("/build/icon/configure.sh", zlib_script "/src/icon"),
     after_generate args_default (zlib_script "/src/icon") w_empty).
Proof.
  apply (generate_zlib_example elements "zlib1g-dev" args_default w_empty);
    [apply iteration_order_elements | reflexivity..].
Defined.

(** * Further properties *)

Local Open Scope list_scope.
Local Set Warnings "-clear-no-such-hyp".

(** ** Link names *)

Section LinkNames.
Implicit Types l s p suf stem : string.

Lemma str_take_drop n s : str_take n s +:+ str_drop n s = s.
Proof.
  revert s. induction n as [|n IH]; intros [|c s]; simpl; try done.
  by rewrite str_app_cons, IH.
Qed.

Lemma startswith_inv p s :
  startswith p s = true → s = p +:+ str_drop (String.length p) s.
Proof.
  unfold startswith. revert s. induction p as [|c p IH]; intros [|d s]; simpl; try done.
  destruct (ascii_dec c d) as [->|]; [|done].
  intros H. by rewrite str_app_cons, <- (IH s H).
Qed.

Lemma endswith_inv suf s :
  endswith suf s = true → s = str_drop_last (String.length suf) s +:+ suf.
Proof.
  unfold endswith, str_drop_last.
  intros [_ Hd%bool_decide_eq_true]%andb_true_iff.
  rewrite <- (str_take_drop (String.length s - String.length suf) s) at 1.
  by rewrite Hd.
Qed.
End LinkNames.

(** X1.  [link_name] fails exactly on the names that do not begin with
    [lib].  On the others it returns a stem such that the name is [lib],
    the stem, and one of [.a], [.so] or nothing: at most one suffix is cut
    off and nothing else of the name is lost. *)
Theorem link_name_decomposes (l : string) :
  match link_name l with
  | Ok stem =>
      startswith "lib" l = true
      ∧ ∃ suffix, suffix ∈ known_suffixes ∧ l = "lib" +:+ stem +:+ suffix
  | Raise e => e = AssertionError None ∧ startswith "lib" l = false
  end.
Proof.
  unfold link_name. destruct (startswith "lib" l) eqn:Hlib; [|done].
  split; [done|]. apply startswith_inv in Hlib. simpl String.length in Hlib.
  set (rest := str_drop 3 l) in *. unfold known_suffixes.
  destruct (endswith ".a" rest) eqn:Ha; [|destruct (endswith ".so" rest) eqn:Hso].
  - exists ".a". split; [set_solver|].
    rewrite Hlib at 1. f_equal. by apply endswith_inv in Ha.
  - exists ".so". split; [set_solver|].
    rewrite Hlib at 1. f_equal. by apply endswith_inv in Hso.
  - exists EmptyString. split; [set_solver|].
    by rewrite str_app_nil_r.
Qed.

(** ** The first loop of the generator *)

Section ScanDeps.
Implicit Types (deps : list DependencyInfo) (incs libds : gset string).

Lemma scan_deps_good deps incs libds libs :
  Forall (λ d, startswith "lib" (lib d) = true) deps →
  ∃ stems,
    scan_deps deps incs libds libs
    = Ok (incs ∪ list_to_set (include_dir <$> deps),
          libds ∪ list_to_set (lib_dir <$> deps),
          (libs ++ stems)%list)
    ∧ Forall2 (λ d stem, link_name (lib d) = Ok stem) deps stems.
Proof.
  intros Hall. revert incs libds libs.
  induction Hall as [|d deps Hd _ IH]; intros incs libds libs.
  - exists []. simpl. rewrite !(right_id_L ∅ (∪)), app_nil_r. by split.
  - simpl. destruct (link_name (lib d)) as [stem|e] eqn:Hl.
    + destruct (IH (incs ∪ {[include_dir d]}) (libds ∪ {[lib_dir d]}) (libs ++ [stem]))
        as (stems & Hrun & Hstems).
      exists (stem :: stems). rewrite Hrun. split; [|by constructor].
      by rewrite <- !(assoc_L (∪)), <- app_assoc.
    + unfold link_name in Hl. by rewrite Hd in Hl.
Qed.

Lemma scan_deps_bad deps incs libds libs :
  Exists (λ d, startswith "lib" (lib d) = false) deps →
  scan_deps deps incs libds libs = Raise (AssertionError None).
Proof.
  intros Hex. revert incs libds libs.
  induction Hex as [d deps Hd|d deps _ IH]; intros incs libds libs; simpl.
  - unfold link_name. by rewrite Hd.
  - destruct (link_name (lib d)) as [stem|e] eqn:Hl; [apply IH|].
    by rewrite (scan_deps_raise [d] incs libds libs e) by (simpl; by rewrite Hl).
Qed.
End ScanDeps.

(** X2.  For a catalog whose library names all begin with [lib], the first
    loop yields one link name per descriptor, in catalog order, duplicates
    included; the directories are collected as sets, so that under every
    admissible iteration order each include directory and each library
    directory of the catalog is listed exactly once. *)
Theorem scan_deps_flags
    (it : gset string → list string) (deps : list DependencyInfo) :
  iteration_order it →
  Forall (λ d, startswith "lib" (lib d) = true) deps →
  ∃ incs libds stems,
    scan_deps deps ∅ ∅ [] = Ok (incs, libds, stems)
    ∧ Forall2 (λ d stem, link_name (lib d) = Ok stem) deps stems
    ∧ NoDup (it incs) ∧ (∀ x, x ∈ it incs ↔ x ∈ include_dir <$> deps)
    ∧ NoDup (it libds) ∧ (∀ x, x ∈ it libds ↔ x ∈ lib_dir <$> deps).
Proof.
  intros Hit Hall.
  destruct (scan_deps_good deps ∅ ∅ [] Hall) as (stems & Hrun & Hstems).
  rewrite !(left_id_L ∅ (∪)) in Hrun. simpl in Hrun.
  eexists _, _, _. split; [exact Hrun|]. split; [exact Hstems|].
  split_and!.
  - rewrite (Hit _). apply NoDup_elements.
  - intros x. by rewrite (Hit _), elem_of_elements, elem_of_list_to_set.
  - rewrite (Hit _). apply NoDup_elements.
  - intros x. by rewrite (Hit _), elem_of_elements, elem_of_list_to_set.
Qed.

Lemma scan_deps_flags_witness :
  ∃ incs libds stems,
    scan_deps DEPS ∅ ∅ [] = Ok (incs, libds, stems)
    ∧ Forall2 (λ d stem, link_name (lib d) = Ok stem) DEPS stems
    ∧ NoDup (elements incs) ∧ (∀ x, x ∈ elements incs ↔ x ∈ include_dir <$> DEPS)
    ∧ NoDup (elements libds) ∧ (∀ x, x ∈ elements libds ↔ x ∈ lib_dir <$> DEPS).
Proof.
  apply (scan_deps_flags elements DEPS); [by intros X | repeat constructor].
Defined.

(** X3.  When some library name of the catalog does not begin with [lib],
    the generator raises a bare assertion failure and leaves the world as it
    was, whatever the configuration says, and also when [mpi] is on: the
    catalog is examined before the switch. *)
Theorem generate_bad_catalog
    (it : gset string → list string) (deps : list DependencyInfo)
    (args : Args) (w : World) :
  Exists (λ d, startswith "lib" (lib d) = false) deps →
  generate_configure_script it deps args w = (Raise (AssertionError None), w).
Proof.
  intros Hex. unfold generate_configure_script, lift. unfold bind at 1.
  by rewrite (scan_deps_bad deps ∅ ∅ [] Hex).
Qed.

Lemma generate_bad_catalog_witness :
  generate_configure_script elements bad_catalog args_mpi w_old_script
  = (Raise (AssertionError None), w_old_script).
Proof.
  apply (generate_bad_catalog elements bad_catalog args_mpi w_old_script).
  apply Exists_cons_tl, Exists_cons_hd. reflexivity.
Defined.

(** ** Outcomes of the generator *)

Section GeneratorOutcomes.
Variable it : gset string → list string.
Implicit Types (args : Args) (w : World) (deps : list DependencyInfo).

Lemma new_events_app w w' es : trace w' = trace w ++ es → new_events w w' = es.
Proof. intros H. unfold new_events. by rewrite H, drop_app_length. Qed.

Lemma new_events_same w : new_events w w = [].
Proof. apply new_events_app. by rewrite app_nil_r. Qed.

(** Every way a run with the switch off can end. *)
Lemma generate_cases deps args w sc :
  scan_deps deps ∅ ∅ [] = Ok sc →
  mpi args = false →
  let p := build_dir args in
  let txt := script_of it args sc in
  generate_configure_script it deps args w
  = if bool_decide (p = EmptyString)
    then (Raise FileNotFoundError, add_events [EvMakedirs p] w)
    else if existsb (λ a, path_isfile a w) (ancestors (rstrip_slash p))
    then (Raise NotADirectoryError, add_events [EvMakedirs p] w)
    else if existsb (λ a, path_isfile a w) (ancestors p) || path_isfile p w
    then (Raise FileExistsError, add_events [EvMakedirs p] w)
    else if path_isdir (cfg_path args) w
    then (Raise IsADirectoryError,
          add_events [EvWrite (cfg_path args) txt]
            (with_nodes (mkdir_all (ancestors p ++ [p]))
               (add_events [EvMakedirs p] w)))
    else (Ok (cfg_path args, txt), after_generate args txt w).
Proof.
  intros Hs Hm p txt.
  destruct (build_dir_usable args w) eqn:Hu.
  { rewrite (generate_run it deps args w sc Hs Hm Hu).
    apply build_dir_usable_spec in Hu as (Hne & Hanc & Hfile & Hdir).
    fold p in Hne, Hanc, Hfile.
    by rewrite bool_decide_eq_false_2, (no_file_above p w Hanc), Hanc, Hfile, Hdir. }
  rewrite (generate_unfold it deps args w sc Hs Hm). fold p txt.
  pose proof (makedirs_run p w) as Hmk. cbv zeta in Hmk.
  destruct (bool_decide (p = EmptyString)) eqn:H1;
    [by rewrite (bind_raise _ _ _ _ _ Hmk)|].
  destruct (existsb (λ a, path_isfile a w) (ancestors (rstrip_slash p))) eqn:H0;
    [by rewrite (bind_raise _ _ _ _ _ Hmk)|].
  destruct (existsb (λ a, path_isfile a w) (ancestors p)) eqn:H2;
    [by rewrite (bind_raise _ _ _ _ _ Hmk)|].
  destruct (path_isfile p w) eqn:H3;
    [by rewrite (bind_raise _ _ _ _ _ Hmk)|].
  simpl in Hmk |- *.
  unfold build_dir_usable in Hu. fold p in Hu.
  rewrite H1, H2, H3 in Hu. simpl in Hu. apply negb_false_iff in Hu. rewrite Hu.
  rewrite (bind_ok _ _ _ _ _ Hmk).
  rewrite (bind_ok _ _ _ _ _ (reconcile_run (cfg_path args) txt _)).
  pose proof (cfg_path_after_makedirs args w [EvMakedirs p]) as Hlook.
  fold p in Hlook. rewrite Hlook.
  unfold path_isdir in Hu.
  destruct (nodes w !! cfg_path args) as [[]|] eqn:Hnode; try done.
  erewrite bind_raise; [done|]. apply write_text_dir.
  unfold path_isdir. by rewrite Hlook.
Qed.

Lemma usable_after_generate args txt w :
  build_dir_usable args w = true →
  build_dir_usable args (after_generate args txt w) = true.
Proof.
  intros (Hne & Hanc & Hfile & Hdir)%build_dir_usable_spec.
  assert (Hmade : ∀ a, a ∈ ancestors (build_dir args) ++ [build_dir args] →
                       path_isfile a (after_generate args txt w) = false).
  { intros a Ha. apply path_isdir_not_isfile.
    rewrite <- dir_exists_isdir. by apply dir_exists_after_generate. }
  apply build_dir_usable_spec. split_and!; [done| | |].
  - apply not_true_is_false. intros (a & Ha & Hf)%existsb_exists.
    rewrite Hmade in Hf; [done|]. apply elem_of_app. left. by apply list_elem_of_In.
  - apply Hmade, elem_of_app. right. by apply list_elem_of_singleton.
  - unfold path_isdir, after_generate. simpl. by rewrite lookup_insert_eq.
Qed.
End GeneratorOutcomes.

(** X4.  With the switch off and a well-named catalog, four obstacles make
    the generator fail, each in its own way.  An empty build path:
    FileNotFoundError.  A regular file above the last component of the
    build path: NotADirectoryError.  Otherwise a regular file in the place
    of the build directory, be it named with or without the trailing
    separators of the path: FileExistsError.  In these three cases the call
    of [makedirs] is all that is recorded; nothing has been made, removed
    or written.  With none of these, a directory in the place of the
    script: IsADirectoryError, after the build directory has been made. *)
Theorem generate_obstacles
    (it : gset string → list string) (deps : list DependencyInfo)
    (args : Args) (w : World) (sc : gset string * gset string * list string) :
  scan_deps deps ∅ ∅ [] = Ok sc →
  mpi args = false →
  let p := build_dir args in
  let run := generate_configure_script it deps args w in
  let attempted := add_events [EvMakedirs p] w in
  let above := existsb (λ a, path_isfile a w) (ancestors (rstrip_slash p)) in
  let among := existsb (λ a, path_isfile a w) (ancestors p) in
  (p = EmptyString → run = (Raise FileNotFoundError, attempted))
  ∧ (p ≠ EmptyString → above = true → run = (Raise NotADirectoryError, attempted))
  ∧ (p ≠ EmptyString → above = false → among || path_isfile p w = true →
     run = (Raise FileExistsError, attempted))
  ∧ (p ≠ EmptyString → among = false → path_isfile p w = false →
     path_isdir (cfg_path args) w = true →
     run = (Raise IsADirectoryError,
            add_events [EvWrite (cfg_path args) (script_of it args sc)]
              (with_nodes (mkdir_all (ancestors p ++ [p])) attempted))).
Proof.
  intros Hs Hm p run attempted above among. unfold run, above, among.
  rewrite (generate_cases it deps args w sc Hs Hm). cbv zeta. fold p.
  split_and!.
  - intros ->. done.
  - intros Hne Ha. by rewrite bool_decide_eq_false_2, Ha.
  - intros Hne Ha Hf. by rewrite bool_decide_eq_false_2, Ha, Hf.
  - intros Hne Ha Hf Hd.
    by rewrite bool_decide_eq_false_2, (no_file_above p w Ha), Ha, Hf, Hd.
Qed.

Lemma generate_obstacles_witness :
  generate_configure_script elements DEPS args_trailing_slash w_build_is_file
  = (Raise FileExistsError, add_events [EvMakedirs "/build/icon/"] w_build_is_file).
Proof.
  pose proof (generate_obstacles elements DEPS args_trailing_slash w_build_is_file
                DEPS_scanned scan_DEPS eq_refl) as H.
  cbv zeta in H. destruct H as (_ & _ & H & _).
  apply H; [discriminate | reflexivity | reflexivity].
Defined.

(** X5.  Whatever a run of the generator ends with, the only calls it has
    made on the filesystem are [makedirs] of the build directory and a
    read, a removal and a write at the path of the script; it has read or
    removed only if a regular file was at that path when it started; and it
    leaves the package cache, the working copies and the remotes alone. *)
Theorem generate_calls
    (it : gset string → list string) (deps : list DependencyInfo)
    (args : Args) (w w' : World) (r : result (string * string)) :
  generate_configure_script it deps args w = (r, w') →
  apt_cache w' = apt_cache w ∧ repos w' = repos w ∧ remotes w' = remotes w
  ∧ Forall (generator_call args) (new_events w w')
  ∧ (EvRead (cfg_path args) ∈ new_events w w'
     ∨ EvRemove (cfg_path args) ∈ new_events w w' →
     file_exists (cfg_path args) w = true).
Proof.
  intros Hrun.
  assert (Hquiet : w' = w →
            apt_cache w' = apt_cache w ∧ repos w' = repos w ∧ remotes w' = remotes w
            ∧ Forall (generator_call args) (new_events w w')
            ∧ (EvRead (cfg_path args) ∈ new_events w w'
               ∨ EvRemove (cfg_path args) ∈ new_events w w' →
               file_exists (cfg_path args) w = true)).
  { intros ->. rewrite new_events_same. split_and!; try done.
    intros [H|H]; by apply elem_of_nil in H. }
  destruct (scan_deps deps ∅ ∅ []) as [sc|e0] eqn:Hs.
  2:{ unfold generate_configure_script, lift in Hrun. unfold bind at 1 in Hrun.
      rewrite Hs in Hrun. injection Hrun as _ <-. by apply Hquiet. }
  destruct (mpi args) eqn:Hm.
  { rewrite (generate_mpi it deps args w Hm) in Hrun. injection Hrun as _ <-.
    by apply Hquiet. }
  clear Hquiet.
  rewrite (generate_cases it deps args w sc Hs Hm) in Hrun. cbv zeta in Hrun.
  assert (Hmk : generator_call args (EvMakedirs (build_dir args))) by by left.
  assert (Hwr : ∀ txt, generator_call args (EvWrite (cfg_path args) txt))
    by (intros txt; right; right; right; by exists txt).
  assert (Hrd : generator_call args (EvRead (cfg_path args))) by (right; by left).
  assert (Hrm : generator_call args (EvRemove (cfg_path args)))
    by (right; right; by left).
  repeat case_match; injection Hrun as _ <-.
  1-3: split_and!; try done;
    [ erewrite new_events_app by done; by apply Forall_cons_2
    | erewrite new_events_app by done; set_solver ].
  - match goal with |- context [add_events [?e] _] =>
      assert (Hnew : new_events w
                (add_events [e]
                   (with_nodes (mkdir_all (ancestors (build_dir args) ++ [build_dir args]))
                      (add_events [EvMakedirs (build_dir args)] w)))
              = [EvMakedirs (build_dir args); e])
        by (apply new_events_app; simpl; by rewrite <- app_assoc)
    end.
    rewrite Hnew. split_and!; try done.
    + by repeat apply Forall_cons_2.
    + set_solver.
  - split_and!; try done.
    + erewrite new_events_app by done. unfold reconcile_events.
      destruct (nodes w !! cfg_path args) as [[old t|]|];
        [|by repeat apply Forall_cons_2..].
      destruct (bool_decide (_ ≠ old)); by repeat apply Forall_cons_2.
    + erewrite new_events_app by done. unfold reconcile_events.
      rewrite file_exists_isfile. unfold path_isfile.
      destruct (nodes w !! cfg_path args) as [[old t|]|]; [done|set_solver..].
Qed.

Lemma generate_calls_witness :
  Forall (generator_call args_default)
    (new_events w_old_script
       (generate_configure_script elements DEPS args_default w_old_script).2).
Proof.
  destruct (generate_configure_script elements DEPS args_default w_old_script)
    as [r w'] eqn:Hrun.
  by destruct (generate_calls elements DEPS args_default w_old_script w' r Hrun)
    as (_ & _ & _ & H & _).
Defined.

(** X7.  Texts are plain here (ASCII, no carriage return), so that what is
    read is what was written.  A successful run then removes a file in one
    case only: an earlier script is at the script path and its text is not
    the rendered one.  No other path is ever removed. *)
Theorem generate_removes_only_stale_script
    (it : gset string → list string) (deps : list DependencyInfo)
    (args : Args) (w w' : World) (r : string * string) :
  generate_configure_script it deps args w = (Ok r, w') →
  plain_text r.2 = true →
  (∀ old t, nodes w !! r.1 = Some (File old t) → plain_text old = true) →
  (EvRemove r.1 ∈ new_events w w'
   ↔ ∃ old t, nodes w !! r.1 = Some (File old t) ∧ old ≠ r.2)
  ∧ (∀ q, EvRemove q ∈ new_events w w' → q = r.1).
Proof.
  intros (sc & _ & _ & _ & -> & ->)%generate_ok_inv _ _. simpl.
  set (txt := script_of it args sc). set (path := cfg_path args).
  rewrite (new_events_app w (after_generate args txt w)
             (EvMakedirs (build_dir args) :: reconcile_events path txt w
              ++ [EvWrite path txt])) by done.
  unfold reconcile_events.
  destruct (nodes w !! path) as [[old t|]|] eqn:Hnode.
  - destruct (decide (txt = old)) as [->|Hne].
    + rewrite bool_decide_eq_false_2 by (by intros []). split.
      * split; [set_solver|]. intros (o & t' & [= <- <-] & ?). done.
      * set_solver.
    + rewrite bool_decide_eq_true_2 by done. split.
      * split; [|set_solver]. intros _. exists old, t. by split.
      * set_solver.
  - split; [|set_solver]. split; [set_solver|]. by intros (? & ? & ? & _).
  - split; [|set_solver]. split; [set_solver|]. by intros (? & ? & ? & _).
Qed.

Lemma generate_removes_only_stale_script_witness :
  ∃ r w',
    generate_configure_script elements DEPS args_default w_old_script = (Ok r, w')
    ∧ (EvRemove r.1 ∈ new_events w_old_script w'
       ↔ ∃ old t, nodes w_old_script !! r.1 = Some (File old t) ∧ old ≠ r.2).
Proof.
  destruct (generate_configure_script elements DEPS args_default w_old_script)
    as [[r|e] w'] eqn:Hrun; [|by vm_compute in Hrun].
  exists r, w'. split; [done|].
  apply (generate_removes_only_stale_script elements DEPS args_default
           w_old_script w' r Hrun).
  - vm_compute in Hrun. injection Hrun as <- _. vm_compute. reflexivity.
  - intros old t Hold. vm_compute in Hrun. injection Hrun as <- _.
    vm_compute in Hold. injection Hold as <- _. vm_compute. reflexivity.
Defined.

(** X8.  Texts are plain here as well.  Running the generator again after a
    success, with nothing changed in between, succeeds with the same path
    and text: the second run makes the directory, reads the script and
    writes it, and removes nothing. *)
Theorem generate_twice
    (it : gset string → list string) (deps : list DependencyInfo)
    (args : Args) (w w1 : World) (r : string * string) :
  generate_configure_script it deps args w = (Ok r, w1) →
  plain_text r.2 = true →
  ∃ w2,
    generate_configure_script it deps args w1 = (Ok r, w2)
    ∧ new_events w1 w2 = [EvMakedirs (build_dir args); EvRead r.1; EvWrite r.1 r.2]
    ∧ nodes w2 !! r.1 = Some (File r.2 (clock w1)).
Proof.
  intros (sc & Hs & Hm & Hu & -> & ->)%generate_ok_inv _. simpl.
  set (txt := script_of it args sc). set (path := cfg_path args).
  set (w1 := after_generate args txt w).
  assert (Hu1 : build_dir_usable args w1 = true) by by apply usable_after_generate.
  assert (Hnode : nodes w1 !! path = Some (File txt (clock w))).
  { unfold w1, after_generate. simpl. apply lookup_insert_eq. }
  exists (after_generate args txt w1).
  split; [by apply generate_run|]. split.
  - apply new_events_app. unfold after_generate at 1. simpl.
    unfold reconcile_events. fold path. rewrite Hnode.
    by rewrite bool_decide_eq_false_2 by (by intros []).
  - unfold after_generate at 1. simpl. apply lookup_insert_eq.
Qed.

Lemma generate_twice_witness :
  ∃ r w1 w2,
    generate_configure_script elements DEPS args_default w_empty = (Ok r, w1)
    ∧ generate_configure_script elements DEPS args_default w1 = (Ok r, w2)
    ∧ nodes w2 !! r.1 = Some (File r.2 (clock w1)).
Proof.
  destruct (generate_configure_script elements DEPS args_default w_empty)
    as [[r|e] w1] eqn:Hrun; [|by vm_compute in Hrun].
  destruct (generate_twice elements DEPS args_default w_empty w1 r Hrun)
    as (w2 & Hrun2 & _ & Hnode).
  - vm_compute in Hrun. injection Hrun as <- _. vm_compute. reflexivity.
  - by exists r, w1, w2.
Defined.

(** ** The shape of the script *)

Section Shape.
Lemma render_with_claw args a b c cl :
  claw args = Some cl →
  render args a b c
  = (cfg_script_header +:+ cfg_exports args a b c +:+ "export CLAW=" +:+ dq +:+ cl +:+ dq)
    +:+ nl +:+ icon_dir args +:+ "/configure --enable-claw --disable-mpi" +:+ nl.
Proof. intros H. unfold render. rewrite H. reflexivity. Qed.

Lemma render_without_claw args a b c :
  claw args = None →
  render args a b c
  = (cfg_script_header +:+ cfg_exports args a b c)
    +:+ nl +:+ icon_dir args +:+ "/configure --disable-mpi" +:+ nl.
Proof. intros H. unfold render. rewrite H. reflexivity. Qed.
End Shape.

(** X9.  Every script a run returns begins with an empty line followed by
    the line [#!/bin/bash], and ends with the configure invocation of the
    source directory.  With a transpiler configured the invocation carries
    [--enable-claw --disable-mpi] and the line before it exports CLAW;
    without one it carries [--disable-mpi] alone, after an empty line. *)
Theorem generate_script_shape
    (it : gset string → list string) (deps : list DependencyInfo)
    (args : Args) (w w' : World) (r : string * string) :
  generate_configure_script it deps args w = (Ok r, w') →
  (∃ rest, r.2 = nl +:+ "#!/bin/bash" +:+ nl +:+ nl +:+ "export CC=" +:+ rest)
  ∧ match claw args with
    | Some cl =>
        ∃ pre, r.2 = pre +:+ nl +:+ "export CLAW=" +:+ dq +:+ cl +:+ dq +:+ nl
                     +:+ icon_dir args +:+ "/configure --enable-claw --disable-mpi" +:+ nl
    | None =>
        ∃ pre, r.2 = pre +:+ nl +:+ nl
                     +:+ icon_dir args +:+ "/configure --disable-mpi" +:+ nl
    end.
Proof.
  intros (sc & _ & _ & _ & -> & _)%generate_ok_inv. simpl.
  destruct sc as [[incs libds] libs]. unfold script_of.
  set (a := join " " _). set (b := join " " _). set (c := join " " _).
  destruct (claw args) as [cl|] eqn:Hclaw.
  - rewrite (render_with_claw args a b c cl Hclaw). split.
    + eexists. unfold cfg_script_header, cfg_exports.
      rewrite !str_app_assoc. reflexivity.
    + exists (cfg_script_header
              +:+ nl +:+ "export CC=" +:+ dq +:+ cc args +:+ dq +:+ nl
              +:+ "export FC=" +:+ dq +:+ fc args +:+ dq +:+ nl
              +:+ "export CFLAGS=" +:+ dq +:+ a +:+ dq +:+ nl
              +:+ "export CPPFLAGS=" +:+ dq +:+ a +:+ dq +:+ nl
              +:+ "export FCFLAGS=" +:+ dq +:+ a +:+ dq +:+ nl
              +:+ "export LDFLAGS=" +:+ dq +:+ b +:+ dq +:+ nl
              +:+ "export LIBS=" +:+ dq +:+ c +:+ dq).
      unfold cfg_script_header, cfg_exports. rewrite !str_app_assoc. reflexivity.
  - rewrite (render_without_claw args a b c Hclaw). split.
    + eexists. unfold cfg_script_header, cfg_exports.
      rewrite !str_app_assoc. reflexivity.
    + exists (cfg_script_header
              +:+ nl +:+ "export CC=" +:+ dq +:+ cc args +:+ dq +:+ nl
              +:+ "export FC=" +:+ dq +:+ fc args +:+ dq +:+ nl
              +:+ "export CFLAGS=" +:+ dq +:+ a +:+ dq +:+ nl
              +:+ "export CPPFLAGS=" +:+ dq +:+ a +:+ dq +:+ nl
              +:+ "export FCFLAGS=" +:+ dq +:+ a +:+ dq +:+ nl
              +:+ "export LDFLAGS=" +:+ dq +:+ b +:+ dq +:+ nl
              +:+ "export LIBS=" +:+ dq +:+ c +:+ dq).
      unfold cfg_script_header, cfg_exports. rewrite !str_app_assoc. reflexivity.
Qed.

Lemma generate_script_shape_witness :
  ∃ r w',
    generate_configure_script elements DEPS args_claw w_empty = (Ok r, w')
    ∧ ∃ pre, r.2 = pre +:+ nl +:+ "export CLAW=" +:+ dq +:+ "/opt/claw/bin/clawfc" +:+ dq
                   +:+ nl +:+ "/src/icon" +:+ "/configure --enable-claw --disable-mpi" +:+ nl.
Proof.
  destruct (generate_configure_script elements DEPS args_claw w_empty)
    as [[r|e] w'] eqn:Hrun; [|by vm_compute in Hrun].
  exists r, w'. split; [done|].
  by destruct (generate_script_shape elements DEPS args_claw w_empty w' r Hrun) as [_ H].
Defined.

(** ** More on the compiler check *)

(** X10.  [check_compilers] only looks: whatever it returns, the world is
    the one it was given.  It succeeds exactly when the C compiler, the
    Fortran compiler and, if one is configured, the transpiler are regular
    files. *)
Theorem check_compilers_outcome (args : Args) (w : World) :
  (check_compilers args w).2 = w
  ∧ ((check_compilers args w).1 = Ok tt ↔ compilers_present args w = true).
Proof.
  unfold check_compilers, compilers_present. run.
  destruct (file_exists (cc args) w); run; [|by split].
  destruct (file_exists (fc args) w); run; [|by split].
  destruct (claw args) as [cl|]; run; [|by split].
  destruct (file_exists cl w); run; by split.
Qed.

(** X11.  The compilers are examined in the order C, Fortran, transpiler,
    and the first one missing is reported.  A missing C compiler is named in
    the message even if the others are missing too; a missing transpiler is
    reported, by its path, only after both compilers were found. *)
Theorem check_compilers_order (args : Args) (w : World) :
  (file_exists (cc args) w = false →
   check_compilers args w
   = (Raise (AssertionError
        (Some ("C compiler " +:+ dq +:+ cc args +:+ dq +:+ " not found"))), w))
  ∧ (∀ cl, file_exists (cc args) w = true → file_exists (fc args) w = true →
           claw args = Some cl → file_exists cl w = false →
           check_compilers args w
           = (Raise (AssertionError
                (Some ("CLAW compiler " +:+ dq +:+ cl +:+ dq +:+ " not found"))), w)).
Proof.
  unfold check_compilers. split.
  - intros Hcc. run. by rewrite Hcc.
  - intros cl Hcc Hfc Hclaw Hcl. run. rewrite Hcc. run. rewrite Hfc. run.
    rewrite Hclaw. run. by rewrite Hcl.
Qed.

Lemma check_compilers_order_witness :
  check_compilers args_default w_empty
  = (Raise (AssertionError
       (Some ("C compiler " +:+ dq +:+ "/usr/bin/gcc" +:+ dq +:+ " not found"))), w_empty)
  ∧ check_compilers args_claw w_ready
    = (Raise (AssertionError
         (Some ("CLAW compiler " +:+ dq +:+ "/opt/claw/bin/clawfc" +:+ dq +:+ " not found"))),
       w_ready).
Proof.
  split.
  - apply (check_compilers_order args_default w_empty). reflexivity.
  - destruct (check_compilers_order args_claw w_ready) as [_ H].
    apply (H "/opt/claw/bin/clawfc"); reflexivity.
Defined.

(** ** More on the dependency verifier *)

Section Verifier.
Lemma first_failure {A} (P : A → bool) (l : list A) :
  Forall (λ x, P x = true) l
  ∨ ∃ pre d post, l = pre ++ d :: post ∧ Forall (λ x, P x = true) pre ∧ P d = false.
Proof.
  induction l as [|x l IH]; [by left|].
  destruct (P x) eqn:Hx.
  - destruct IH as [Hall|(pre & d & post & -> & Hpre & Hd)].
    + left. by constructor.
    + right. exists (x :: pre), d, post. split_and!; [done| by constructor | done].
  - right. exists [], x, l. by split_and!.
Qed.

(** The two ways the verifier can end. *)
Lemma check_dependencies_ends deps w :
  Forall (λ d, dep_ok d w = true) deps
  ∧ check_dependencies deps w = (Ok tt, add_events (names_printed deps) w)
  ∨ ∃ pre d post msg,
      deps = pre ++ d :: post
      ∧ Forall (λ d, dep_ok d w = true) pre ∧ dep_ok d w = false
      ∧ check_dependencies deps w
        = (Raise (AssertionError (Some msg)),
           add_events (names_printed (pre ++ [d])) w).
Proof.
  destruct (first_failure (λ d, dep_ok d w) deps)
    as [Hall|(pre & d & post & -> & Hpre & Hd)].
  - left. split; [done | by apply check_dependencies_all_ok].
  - right.
    destruct (check_dependency_fails d (add_events (names_printed pre) w) Hd)
      as (msg & Hrun & _).
    exists pre, d, post, msg. split_and!; try done.
    unfold check_dependencies. rewrite for_each_app.
    fold (check_dependencies pre). rewrite check_dependencies_all_ok by done.
    simpl. unfold bind. rewrite Hrun, add_events_app.
    unfold names_printed. by rewrite fmap_app.
Qed.
End Verifier.

(** X12.  The verifier only looks and prints: whatever it returns, the
    world differs from the one it was given by the progress lines of a
    prefix of the catalog and by nothing else.  And it succeeds exactly when
    every descriptor has its package installed, its header and its library. *)
Theorem check_dependencies_read_only (deps : list DependencyInfo) (w : World) :
  (∃ k, (check_dependencies deps w).2 = add_events (names_printed (take k deps)) w)
  ∧ ((check_dependencies deps w).1 = Ok tt ↔ Forall (λ d, dep_ok d w = true) deps).
Proof.
  destruct (check_dependencies_ends deps w)
    as [[Hall ->]|(pre & d & post & msg & -> & Hpre & Hd & ->)]; simpl.
  - split; [|done]. exists (length deps). by rewrite firstn_all.
  - split.
    + exists (length pre + 1). by rewrite take_app_add.
    + split; [done|]. intros Hall.
      apply Forall_app in Hall as [_ Hall]. apply Forall_cons in Hall as [Hd' _].
      congruence.
Qed.

(** ** More on the source synchronizer *)

(** X13.  A remote is given and no directory is at the source path.
    [prepare_source] announces the clone and calls [clone_from] with the
    remote, the source path and the requested branch ([master] when none is
    named).  When that call succeeds and has left a working copy at the
    source path, the rest of the run is the submodule pass over the
    submodules of that working copy, started after the line that announces
    it: the outcome of [prepare_source] is the outcome of that pass. *)
Theorem prepare_source_clones
    (clone_from : string → string → string → M unit)
    (submodule_update : string → string → M unit)
    (args : Args) (w w1 : World) (url : string) (co : Checkout) :
  icon_git_repo args = Some url →
  dir_exists (icon_dir args) w = false →
  clone_from url (icon_dir args) (requested_branch args)
    (add_events [EvPrint ("Cloning into " +:+ icon_dir args)] w) = (Ok tt, w1) →
  repos w1 !! icon_dir args = Some co →
  prepare_source clone_from submodule_update args w
  = update_submodules submodule_update (icon_dir args) (submodules co)
      (add_events [EvPrint (tab +:+ "Updating submodules...")] w1).
Proof.
  intros Hrepo Hdir Hclone Hco.
  unfold prepare_source. rewrite Hrepo.
  unfold bind at 1. unfold gets at 1. rewrite Hdir.
  erewrite bind_ok; cycle 1.
  { rewrite (bind_ok _ _ _ _ _ (eq_refl : print _ w = (Ok tt, _))). exact Hclone. }
  unfold open_repo. run. by rewrite Hco.
Qed.

Lemma prepare_source_clones_witness :
  ∃ w',
    prepare_source clone_offered submodule_update_quiet (args_git None) w_remote
    = (Ok tt, w')
    ∧ new_events w_remote w'
      = [EvPrint "Cloning into /src/icon"; EvClone icon_url "/src/icon" "master";
         EvPrint (tab +:+ "Updating submodules...");
         EvPrint (tab +:+ "externals/cdi"); EvSubmoduleUpdate "externals/cdi";
         EvPrint (tab +:+ "externals/yac"); EvSubmoduleUpdate "externals/yac"].
Proof.
  destruct (clone_offered icon_url "/src/icon" "master"
              (add_events [EvPrint ("Cloning into " +:+ "/src/icon")] w_remote))
    as [[[]|e] w1] eqn:Hclone; [|by vm_compute in Hclone].
  destruct (repos w1 !! "/src/icon") as [co|] eqn:Hco.
  2:{ vm_compute in Hclone. injection Hclone as <-. by vm_compute in Hco. }
  pose proof (prepare_source_clones clone_offered submodule_update_quiet
                (args_git None) w_remote w1 icon_url co eq_refl eq_refl Hclone Hco)
    as Hrun.
  vm_compute in Hclone. injection Hclone as <-.
  vm_compute in Hco. injection Hco as <-.
  eexists. split; [exact Hrun|]. vm_compute. reflexivity.
Defined.

(** X15.  When the source directory exists, [prepare_source] never clones:
    its outcome is the same whatever [clone_from] would do. *)
Theorem prepare_source_existing_dir_untouched
    (clone_from clone_from' : string → string → string → M unit)
    (submodule_update : string → string → M unit) (args : Args) (w : World) :
  dir_exists (icon_dir args) w = true →
  prepare_source clone_from submodule_update args w
  = prepare_source clone_from' submodule_update args w.
Proof.
  intros Hdir. unfold prepare_source.
  destruct (icon_git_repo args) as [url|]; [|done].
  unfold bind, gets. by rewrite Hdir.
Qed.

Lemma prepare_source_existing_dir_untouched_witness :
  prepare_source clone_offered submodule_update_quiet (args_git None) w_checkout
  = prepare_source clone_refused submodule_update_quiet (args_git None) w_checkout.
Proof.
  apply (prepare_source_existing_dir_untouched clone_offered clone_refused
           submodule_update_quiet (args_git None) w_checkout).
  reflexivity.
Defined.

(** X16.  A remote is given and no directory is at the source path.  When
    the call of [clone_from] fails, [prepare_source] fails with the same
    error and stops there, in the state the clone left: no working copy is
    opened and no submodule is touched, whatever a submodule update would
    do. *)
Theorem prepare_source_clone_fails
    (clone_from : string → string → string → M unit)
    (submodule_update : string → string → M unit)
    (args : Args) (w w1 : World) (url : string) (e : error) :
  icon_git_repo args = Some url →
  dir_exists (icon_dir args) w = false →
  clone_from url (icon_dir args) (requested_branch args)
    (add_events [EvPrint ("Cloning into " +:+ icon_dir args)] w) = (Raise e, w1) →
  prepare_source clone_from submodule_update args w = (Raise e, w1).
Proof.
  intros Hrepo Hdir Hclone.
  unfold prepare_source. rewrite Hrepo.
  unfold bind at 1. unfold gets at 1. rewrite Hdir.
  erewrite bind_raise; [done|].
  rewrite (bind_ok _ _ _ _ _ (eq_refl : print _ w = (Ok tt, _))). exact Hclone.
Qed.

Lemma prepare_source_clone_fails_witness :
  prepare_source clone_refused submodule_update_quiet (args_git None) w_remote
  = (Raise GitCommandError,
     add_events [EvPrint "Cloning into /src/icon"; EvClone icon_url "/src/icon" "master"]
       w_remote).
Proof.
  apply (prepare_source_clone_fails clone_refused submodule_update_quiet
           (args_git None) w_remote _ icon_url GitCommandError);
    reflexivity.
Defined.

(** ** The whole run *)

Section MainFacts.
Implicit Types (args : Args) (w : World).

Lemma print_run s w : print s w = (Ok tt, add_events [EvPrint s] w).
Proof. reflexivity. Qed.

Lemma prepare_source_no_remote_run
    (clone_from : string → string → string → M unit)
    (submodule_update : string → string → M unit) args w :
  icon_git_repo args = None →
  prepare_source clone_from submodule_update args w
  = (if dir_exists (icon_dir args) w then Ok tt
     else Raise (AssertionError (Some (msg_no_source (icon_dir args)))), w).
Proof.
  intros Hrepo. unfold prepare_source. rewrite Hrepo. run.
  by destruct (dir_exists (icon_dir args) w).
Qed.

Lemma check_compilers_ok args w :
  compilers_present args w = true → check_compilers args w = (Ok tt, w).
Proof.
  unfold compilers_present, check_compilers.
  intros [[Hcc Hfc]%andb_true_iff Hcl]%andb_true_iff.
  run. rewrite Hcc. run. rewrite Hfc. run.
  destruct (claw args); run; [by rewrite Hcl | done].
Qed.

Lemma check_compilers_bad args w :
  compilers_present args w = false →
  ∃ msg, check_compilers args w = (Raise (AssertionError (Some msg)), w).
Proof.
  unfold compilers_present, check_compilers. intros Hbad. run.
  destruct (file_exists (cc args) w); run; [|by eexists].
  destruct (file_exists (fc args) w); run; [|by eexists].
  destruct (claw args) as [cl|]; run; [|done].
  destruct (file_exists cl w); run; [done | by eexists].
Qed.

Lemma deps_all_ok w es :
  forallb (λ d, dep_ok d w) DEPS = true →
  Forall (λ d, dep_ok d (add_events es w) = true) DEPS.
Proof.
  intros H. apply Forall_forall. intros d Hd.
  change (dep_ok d w = true).
  apply (proj1 (forallb_forall _ _) H). by apply list_elem_of_In.
Qed.

(** The world in which [main] calls the generator, step by step. *)
Lemma before_generate_steps w :
  add_events [EvPrint "Generating configure script..."]
    (add_events [EvPrint "Checking compilers..."]
       (add_events [EvPrint "Preparing source..."]
          (add_events (names_printed DEPS)
             (add_events [EvPrint "Checking that dependencies are installed..."] w))))
  = before_generate w.
Proof.
  unfold before_generate. rewrite !add_events_app. reflexivity.
Qed.
End MainFacts.

(** X17.  For a configuration without a remote, on a machine where all
    dependencies, the source directory and the compilers are present, and
    with plain text (ASCII, no carriage return) in an earlier script and in
    the rendered one: [main] reaches the generator after its progress
    lines, and from there its outcome is decided by the generator and the
    shell.  When the generator fails, [main] fails with the same error in
    the same state and the shell is not started.  When the generator
    succeeds, [main] prints the script and the last progress line and runs
    [bash configure.sh] in the build directory; the outcome of [main] is
    success for return code 0 and a bare assertion failure for every other
    code. *)
Theorem main_runs_configure
    (it : gset string → list string)
    (clone_from : string → string → string → M unit)
    (submodule_update : string → string → M unit)
    (args : Args) (w : World) :
  icon_git_repo args = None →
  preflight_ok args w = true →
  (∀ old t, nodes w !! cfg_path args = Some (File old t) → plain_text old = true) →
  (∀ r wg sh rc w2,
     generate_configure_script it DEPS args (before_generate w) = (Ok r, wg) →
     plain_text r.2 = true →
     sh "bash configure.sh" (build_dir args)
        (add_events [EvPrint r.2; EvPrint "Configuring ICON..."] wg) = (Ok rc, w2) →
     main it sh clone_from submodule_update args w
     = (if bool_decide (rc = 0%Z) then Ok tt else Raise (AssertionError None), w2))
  ∧ (∀ e wg sh,
       generate_configure_script it DEPS args (before_generate w) = (Raise e, wg) →
       main it sh clone_from submodule_update args w = (Raise e, wg)).
Proof.
  intros Hrepo [[Hdeps Hdir]%andb_true_iff Hcomp]%andb_true_iff _.
  assert (Hstart : ∀ sh,
            main it sh clone_from submodule_update args w
            = bind (generate_configure_script it DEPS args)
                (λ generated, let '(cfg_script_file, cfg_script) := generated in
                   print cfg_script ;;
                   print "Configuring ICON..." ;;
                   do returncode <- sh "bash configure.sh" (build_dir args);
                   if bool_decide (returncode = value SUCCESS) then ret tt
                   else raise (AssertionError None))
                (before_generate w)).
  { intros sh. unfold main.
    rewrite (bind_ok _ _ _ _ _ (print_run _ _)).
    rewrite (bind_ok _ _ _ _ _ (check_dependencies_all_ok DEPS _ (deps_all_ok w _ Hdeps))).
    rewrite (bind_ok _ _ _ _ _ (print_run _ _)).
    erewrite bind_ok; cycle 1.
    { rewrite (prepare_source_no_remote_run _ _ args _ Hrepo).
      change (dir_exists (icon_dir args) (add_events _ _))
        with (dir_exists (icon_dir args) w). by rewrite Hdir. }
    rewrite (bind_ok _ _ _ _ _ (print_run _ _)).
    erewrite bind_ok; cycle 1.
    { apply check_compilers_ok. exact Hcomp. }
    rewrite (bind_ok _ _ _ _ _ (print_run _ _)).
    by rewrite before_generate_steps. }
  split.
  - intros [f txt] wg sh rc w2 Hgen _ Hsh.
    rewrite (Hstart sh).
    rewrite (bind_ok _ _ _ _ _ Hgen). cbv beta iota.
    rewrite (bind_ok _ _ _ _ _ (print_run _ _)).
    rewrite (bind_ok _ _ _ _ _ (print_run _ _)).
    rewrite add_events_app. simpl in Hsh |- *.
    rewrite (bind_ok _ _ _ _ _ Hsh).
    change (value SUCCESS) with 0%Z. by destruct (bool_decide (rc = 0%Z)).
  - intros e wg sh Hgen.
    rewrite (Hstart sh).
    by rewrite (bind_raise _ _ _ _ _ Hgen).
Qed.

Lemma main_runs_configure_witness :
  ∃ w1 w2,
    main elements shell_ok clone_offered submodule_update_quiet args_default w_ready
    = (Ok tt, w1)
    ∧ main elements shell_fails clone_offered submodule_update_quiet args_default w_ready
      = (Raise (AssertionError None), w2).
Proof.
  destruct (generate_configure_script elements DEPS args_default (before_generate w_ready))
    as [[r|e] wg] eqn:Hgen; [|by vm_compute in Hgen].
  assert (Hplain : plain_text r.2 = true).
  { vm_compute in Hgen. injection Hgen as <- _. vm_compute. reflexivity. }
  assert (Hold : ∀ old t, nodes w_ready !! cfg_path args_default = Some (File old t) →
                          plain_text old = true).
  { intros old t H. by vm_compute in H. }
  destruct (main_runs_configure elements clone_offered submodule_update_quiet
              args_default w_ready eq_refl eq_refl Hold) as [H _].
  eexists _, _. split.
  - apply (H r wg shell_ok 0%Z _ Hgen Hplain eq_refl).
  - apply (H r wg shell_fails 2%Z _ Hgen Hplain eq_refl).
Defined.

(** Closes a goal saying that every event of a list of prints is a print. *)
Ltac all_prints H :=
  repeat first [apply H | apply Forall_app_2 | constructor | done].

(** X18.  For a configuration without a remote: when a dependency, the
    source directory or a compiler is missing, or [mpi] is on, [main] fails
    with an assertion message before it generates anything.  The filesystem
    is as it was, no script has been written, and the shell is never
    started: the failure is the same whatever the shell would do. *)
Theorem main_stops_before_generation (args : Args) (w : World) :
  icon_git_repo args = None →
  preflight_ok args w && negb (mpi args) = false →
  ∃ msg w',
    (∀ it sh cl upd, main it sh cl upd args w = (Raise (AssertionError (Some msg)), w'))
    ∧ nodes w' = nodes w
    ∧ Forall (λ e, match e with EvPrint _ => True | _ => False end) (new_events w w').
Proof.
  intros Hrepo Hpre.
  set (w0 := add_events [EvPrint "Checking that dependencies are installed..."] w).
  assert (Hprints : ∀ ds, Forall (λ e, match e with EvPrint _ => True | _ => False end)
                            (names_printed ds)).
  { intros ds. unfold names_printed. apply Forall_fmap, Forall_forall. by intros. }
  destruct (check_dependencies_ends DEPS w0)
    as [[Hall Hrun]|(pre & d & post & msg & _ & _ & _ & Hrun)].
  2:{ eexists msg, _. split_and!.
      - intros it sh cl upd. unfold main.
        rewrite (bind_ok _ _ _ _ _ (print_run _ _)).
        by rewrite (bind_raise _ _ _ _ _ Hrun).
      - done.
      - erewrite new_events_app by (simpl; by rewrite <- app_assoc).
        all_prints Hprints. }
  assert (Hdeps : forallb (λ d, dep_ok d w) DEPS = true).
  { apply forallb_forall. intros d Hd%list_elem_of_In.
    exact (proj1 (Forall_forall _ _) Hall d Hd). }
  unfold preflight_ok in Hpre. rewrite Hdeps in Hpre. simpl in Hpre.
  destruct (dir_exists (icon_dir args) w) eqn:Hdir.
  2:{ eexists _, _. split_and!.
      - intros it sh cl upd. unfold main.
        rewrite (bind_ok _ _ _ _ _ (print_run _ _)).
        rewrite (bind_ok _ _ _ _ _ Hrun).
        rewrite (bind_ok _ _ _ _ _ (print_run _ _)).
        erewrite bind_raise; [done|].
        rewrite (prepare_source_no_remote_run _ _ args _ Hrepo).
        change (dir_exists (icon_dir args) (add_events _ _))
          with (dir_exists (icon_dir args) w). by rewrite Hdir.
      - done.
      - erewrite new_events_app by (simpl; by rewrite <- !app_assoc).
        all_prints Hprints. }
  simpl in Hpre.
  destruct (compilers_present args w) eqn:Hcomp.
  2:{ destruct (check_compilers_bad args
                  (add_events [EvPrint "Checking compilers..."]
                     (add_events [EvPrint "Preparing source..."]
                        (add_events (names_printed DEPS) w0))) Hcomp) as (msg & Hcc).
      eexists msg, _. split_and!.
      - intros it sh cl upd. unfold main.
        rewrite (bind_ok _ _ _ _ _ (print_run _ _)).
        rewrite (bind_ok _ _ _ _ _ Hrun).
        rewrite (bind_ok _ _ _ _ _ (print_run _ _)).
        erewrite bind_ok; cycle 1.
        { rewrite (prepare_source_no_remote_run _ _ args _ Hrepo).
          change (dir_exists (icon_dir args) (add_events _ _))
            with (dir_exists (icon_dir args) w). by rewrite Hdir. }
        rewrite (bind_ok _ _ _ _ _ (print_run _ _)).
        by rewrite (bind_raise _ _ _ _ _ Hcc).
      - done.
      - erewrite new_events_app by (simpl; by rewrite <- !app_assoc).
        all_prints Hprints. }
  simpl in Hpre. apply negb_false_iff in Hpre.
  eexists _, _. split_and!.
  - intros it sh cl upd. unfold main.
    rewrite (bind_ok _ _ _ _ _ (print_run _ _)).
    rewrite (bind_ok _ _ _ _ _ Hrun).
    rewrite (bind_ok _ _ _ _ _ (print_run _ _)).
    erewrite bind_ok; cycle 1.
    { rewrite (prepare_source_no_remote_run _ _ args _ Hrepo).
      change (dir_exists (icon_dir args) (add_events _ _))
        with (dir_exists (icon_dir args) w). by rewrite Hdir. }
    rewrite (bind_ok _ _ _ _ _ (print_run _ _)).
    erewrite bind_ok; cycle 1.
    { apply check_compilers_ok. exact Hcomp. }
    rewrite (bind_ok _ _ _ _ _ (print_run _ _)).
    erewrite bind_raise; [done|].
    rewrite (generate_mpi it DEPS args _ Hpre). by rewrite scan_DEPS.
  - done.
  - erewrite new_events_app by (simpl; by rewrite <- !app_assoc).
    all_prints Hprints.
Qed.

Lemma main_stops_before_generation_witness :
  ∃ msg w',
    main elements shell_ok clone_offered submodule_update_quiet args_default w_only_gcc = (Raise (AssertionError (Some msg)), w')
    ∧ nodes w' = nodes w_only_gcc.
Proof.
  destruct (main_stops_before_generation args_default w_only_gcc eq_refl eq_refl)
    as (msg & w' & H & Hn & _).
  exists msg, w'. split; [apply H | exact Hn].
Defined.

(** ** [configure] *)

(** X19.  [configure] asks what a [prepare_source] without a remote asks.
    Each of them leaves the world alone; each succeeds when the source
    directory exists and fails with an assertion message when it does not.
    Only the wording of the failure differs: "not found" against "does not
    exist". *)
Theorem configure_agrees_with_prepare_source
    (clone_from : string → string → string → M unit)
    (submodule_update : string → string → M unit) (args : Args) (w : World) :
  icon_git_repo args = None →
  (dir_exists (icon_dir args) w = true →
   configure args w = (Ok tt, w)
   ∧ prepare_source clone_from submodule_update args w = (Ok tt, w))
  ∧ (dir_exists (icon_dir args) w = false →
     configure args w
     = (Raise (AssertionError
          (Some ("ICON source dir " +:+ dq +:+ icon_dir args +:+ dq +:+ " not found"))), w)
     ∧ prepare_source clone_from submodule_update args w
       = (Raise (AssertionError
            (Some ("ICON source dir " +:+ dq +:+ icon_dir args +:+ dq
                   +:+ " does not exist"))), w)).
Proof.
  intros Hrepo.
  rewrite (prepare_source_no_remote_run clone_from submodule_update args w Hrepo).
  unfold configure. run. split; intros ->; by split.
Qed.

Lemma configure_agrees_with_prepare_source_witness :
  (configure args_default w_ready = (Ok tt, w_ready)
   ∧ prepare_source clone_offered submodule_update_quiet args_default w_ready
     = (Ok tt, w_ready))
  ∧ (configure args_default w_empty
     = (Raise (AssertionError
          (Some ("ICON source dir " +:+ dq +:+ "/src/icon" +:+ dq +:+ " not found"))),
        w_empty)
     ∧ prepare_source clone_offered submodule_update_quiet args_default w_empty
       = (Raise (AssertionError
            (Some ("ICON source dir " +:+ dq +:+ "/src/icon" +:+ dq
                   +:+ " does not exist"))), w_empty)).
Proof.
  split.
  - apply (configure_agrees_with_prepare_source clone_offered submodule_update_quiet
             args_default w_ready eq_refl).
    vm_compute. reflexivity.
  - apply (configure_agrees_with_prepare_source clone_offered submodule_update_quiet
             args_default w_empty eq_refl).
    reflexivity.
Defined.

(** ** The messages of the verifier *)

Section VerifierMessages.
Lemma check_dependency_run dep w :
  check_dependency dep w
  = (match apt_cache w !! apt_package dep with
     | None => Raise (AssertionError (Some (msg_pkg_unknown dep)))
     | Some false => Raise (AssertionError (Some (msg_pkg_missing dep)))
     | Some true =>
         if header_present dep w
         then if lib_present dep w then Ok tt
              else Raise (AssertionError (Some (msg_lib_missing dep)))
         else Raise (AssertionError (Some (msg_header_missing dep)))
     end, add_events [EvPrint (tab +:+ name dep)] w).
Proof.
  unfold check_dependency, header_present, lib_present. run.
  destruct (apt_cache w !! apt_package dep) as [[]|]; run; try done.
  rewrite file_exists_add_events.
  destruct (file_exists (join_path (include_dir dep) (test_h dep)) w); run; [|done].
  rewrite file_exists_add_events.
  by destruct (file_exists (join_path (lib_dir dep) (lib dep)) w).
Qed.

Lemma check_dependencies_stops pre d post w e :
  Forall (λ d, dep_ok d w = true) pre →
  (check_dependency d (add_events (names_printed pre) w)).1 = Raise e →
  check_dependencies (pre ++ d :: post) w
  = (Raise e, add_events (names_printed (pre ++ [d])) w).
Proof.
  intros Hpre Hd. unfold check_dependencies. rewrite for_each_app.
  fold (check_dependencies pre). rewrite check_dependencies_all_ok by done.
  simpl. unfold bind.
  destruct (check_dependency d (add_events (names_printed pre) w)) as [r w'] eqn:Hrun.
  simpl in Hd. subst r.
  rewrite check_dependency_run in Hrun. injection Hrun as _ <-.
  rewrite add_events_app. unfold names_printed. by rewrite fmap_app.
Qed.
End VerifierMessages.

(** X20.  What the verifier says at the first descriptor that fails, after
    descriptors that are all fine.  A package the cache does not know: the
    hint to update the cache.  A known package that is not installed: the
    install command for it.  A missing header: its name and the include
    directory.  A missing library: the message also begins with "Header",
    and names the library file and the library directory. *)
Theorem check_dependencies_messages
    (pre post : list DependencyInfo) (d : DependencyInfo) (w : World) :
  Forall (λ d, dep_ok d w = true) pre →
  let fails msg :=
    check_dependencies (pre ++ d :: post) w
    = (Raise (AssertionError (Some msg)), add_events (names_printed (pre ++ [d])) w) in
  (apt_cache w !! apt_package d = None →
   fails (tab +:+ tab +:+ "Apt package " +:+ dq +:+ apt_package d +:+ dq
          +:+ " not found. Update apt cache with [sudo apt-get update]"
          +:+ " before running the script"))
  ∧ (apt_cache w !! apt_package d = Some false →
     fails ("Install " +:+ dq +:+ apt_package d +:+ dq
            +:+ " with [sudo apt-get install " +:+ apt_package d +:+ "]"))
  ∧ (pkg_installed d w = true → header_present d w = false →
     fails ("Header " +:+ dq +:+ test_h d +:+ dq +:+ " not found at " +:+ include_dir d))
  ∧ (pkg_installed d w = true → header_present d w = true → lib_present d w = false →
     fails ("Header " +:+ dq +:+ lib d +:+ dq +:+ " not found at " +:+ lib_dir d)).
Proof.
  intros Hpre fails. unfold fails, pkg_installed. split_and!.
  - intros Hpkg. apply check_dependencies_stops; [done|].
    rewrite check_dependency_run. simpl. by rewrite Hpkg.
  - intros Hpkg. apply check_dependencies_stops; [done|].
    rewrite check_dependency_run. simpl. by rewrite Hpkg.
  - intros Hpkg%bool_decide_eq_true Hh. apply check_dependencies_stops; [done|].
    rewrite check_dependency_run. simpl. rewrite Hpkg.
    change (header_present d (add_events _ w)) with (header_present d w).
    by rewrite Hh.
  - intros Hpkg%bool_decide_eq_true Hh Hl. apply check_dependencies_stops; [done|].
    rewrite check_dependency_run. simpl. rewrite Hpkg.
    change (header_present d (add_events _ w)) with (header_present d w).
    change (lib_present d (add_events _ w)) with (lib_present d w).
    by rewrite Hh, Hl.
Qed.

Lemma check_dependencies_messages_witness :
  check_dependencies DEPS w_blas_header_missing
  = (Raise (AssertionError
       (Some ("Header " +:+ dq +:+ "cblas.h" +:+ dq
              +:+ " not found at /usr/include/x86_64-linux-gnu"))),
     add_events [EvPrint (tab +:+ "lapack"); EvPrint (tab +:+ "blas")]
       w_blas_header_missing).
Proof.
  pose proof (check_dependencies_messages (take 1 DEPS) (drop 2 DEPS)
                (DepInfo "blas" "libblas-dev" "/usr/include/x86_64-linux-gnu"
                   "/usr/lib/x86_64-linux-gnu/blas" "cblas.h" "libblas.so")
                w_blas_header_missing) as H.
  cbv zeta in H. destruct H as (_ & _ & H & _); [repeat constructor|].
  apply H; reflexivity.
Defined.
